(** * gitops-script.py: a shallow embedding and its properties

    The script edits Argo CD application manifests of a GitOps repository
    through the GitHub API: it creates a dated branch, rewrites one YAML file
    per service on it and opens a pull request.

    The embedding follows the script function by function.  The two
    third-party libraries it calls are interfaces here: the GitHub client is
    the class [Github] over an abstract remote state, PyYAML is the class
    [Yaml].  Python exceptions are the [Raise] results of an error monad, and
    every call to the client is recorded, in order, in a trace. *)

From Stdlib Require Import Ascii.
From stdpp Require Import gmap strings list fin_maps pretty.

#[local] Set Warnings "-register-all,-abstract-large-number".

(** ** Python exceptions and results *)

Inductive exn :=
| KeyError (key : string)
| TypeError
| AttributeError
| YAMLError
| GithubException (status : nat).

Inductive result (A : Type) :=
| Ok (a : A)
| Raise (e : exn).
Arguments Ok {A} a.
Arguments Raise {A} e.

Definition result_bind {A B} (r : result A) (k : A → result B) : result B :=
  match r with
  | Ok a => k a
  | Raise e => Raise e
  end.

#[global] Instance result_mret : MRet result := λ A a, Ok a.
#[global] Instance result_mbind : MBind result := λ A B k r, result_bind r k.

Definition is_raise {A} (r : result A) : Prop := ∃ e, r = Raise e.

(** ** Loaded YAML documents

    What [yaml.safe_load] returns: scalars, lists and dicts.  A dict is a
    finite map: PyYAML dumps keys sorted and Python compares dicts without
    regard to order, so insertion order is not observable by the script.
    Keys are strings, the only keys the script looks up.  The script treats
    every scalar that is not a string alike (it is not subscriptable, not
    iterable and not equal to a string), so floats and timestamps need no
    constructor of their own. *)

Inductive yaml :=
| YNull
| YBool (b : bool)
| YInt (z : Z)
| YStr (s : string)
| YSeq (l : list yaml)
| YMap (m : gmap string yaml).

(** [v[k]] for a string key [k]: a dict is looked up, anything else does not
    take string subscripts. *)
Definition getitem (v : yaml) (k : string) : result yaml :=
  match v with
  | YMap m => match m !! k with
              | Some x => Ok x
              | None => Raise (KeyError k)
              end
  | _ => Raise TypeError
  end.

(** [v[k] = x], returning the updated object. *)
Definition setitem (v : yaml) (k : string) (x : yaml) : result yaml :=
  match v with
  | YMap m => Ok (YMap (<[k := x]> m))
  | _ => Raise TypeError
  end.

(** [v.pop(k, None)], returning the updated object. *)
Definition pop (v : yaml) (k : string) : result yaml :=
  match v with
  | YMap m => Ok (YMap (delete k m))
  | YSeq _ => Raise TypeError
  | _ => Raise AttributeError
  end.

Fixpoint chars (s : string) : list yaml :=
  match s with
  | EmptyString => []
  | String c s' => YStr (String c EmptyString) :: chars s'
  end.

(** [for x in v]: the items of a list, the keys of a dict, the characters of
    a string; other values are not iterable. *)
Definition iter (v : yaml) : result (list yaml) :=
  match v with
  | YSeq l => Ok l
  | YMap m => Ok (YStr <$> (map_to_list m).*1)
  | YStr s => Ok (chars s)
  | _ => Raise TypeError
  end.

(** [v == s] and [v != s] for a string literal [s]. *)
Definition eq_str (v : yaml) (s : string) : bool :=
  match v with
  | YStr s' => bool_decide (s' = s)
  | _ => false
  end.

(** [f'{x}'] for a value that argparse leaves as [None] when the flag is not
    given. *)
Definition fmt (x : option string) : string := default "None" x.

Definition dq : string := String (Ascii.ascii_of_nat 34) EmptyString.
Definition quoted (s : string) : string := dq +:+ s +:+ dq.

(** ** Dates: [datetime.today().strftime('%Y-%m-%d')] *)

Record date := { year : nat; month : nat; day : nat }.

Definition pad2 (n : nat) : string :=
  if decide (n < 10) then "0" +:+ pretty n else pretty n.

Definition pad4 (n : nat) : string :=
  if decide (n < 10) then "000" +:+ pretty n
  else if decide (n < 100) then "00" +:+ pretty n
  else if decide (n < 1000) then "0" +:+ pretty n
  else pretty n.

Definition strftime (d : date) : string :=
  pad4 (year d) +:+ "-" +:+ pad2 (month d) +:+ "-" +:+ pad2 (day d).

(** ** The GitHub client *)

(** A [ContentFile] of PyGithub, with the attributes the script reads;
    [decoded_content] stands for [decoded_content.decode()]. *)
Record ContentFile := {
  path : string;
  name : string;
  decoded_content : string;
  sha : string;
}.

(** [Repository.get_contents] returns one file, or the entries of a
    directory. *)
Inductive Contents :=
| AFile (f : ContentFile)
| AListing (l : list ContentFile).

Record Repository := { repo_name : string; default_branch : string }.

(** The calls the script makes.  Reads take the remote state and leave it as
    it is; writes return the new state or raise and leave it as it is. *)
Class Github (W : Type) := {
  gh_get_repo : string → string → W → result Repository;
  (** [repo.get_branch(b).commit.sha] *)
  gh_get_branch : Repository → string → W → result string;
  (** [repo.get_contents(path, ref)]; no [ref] means the default branch *)
  gh_get_contents : Repository → string → option string → W → result Contents;
  (** [repo.create_git_ref(ref, sha)] *)
  gh_create_git_ref : Repository → string → string → W → result W;
  (** [repo.update_file(path, message, content, sha, branch)] *)
  gh_update_file :
    Repository → string → string → string → string → string → W → result W;
  (** [repo.create_pull(base, head, title)] *)
  gh_create_pull : Repository → string → string → string → W → result W;
}.

(** [yaml.safe_load] and [yaml.dump(_, default_flow_style=False,
    explicit_start=True)]. *)
Class Yaml := {
  safe_load : string → result yaml;
  yaml_dump : yaml → string;
}.

Inductive event :=
| EvGetRepo (full_name : string)
| EvGetBranch (branch : string)
| EvGetContents (file_path : string) (ref : option string)
| EvCreateGitRef (ref : string) (commit : string)
| EvUpdateFile (file_path message content blob branch : string)
| EvCreatePull (base head title : string)
| EvPrint (line : string).

(** ** The monad of the script: remote state, trace and exceptions *)

Record state (W : Type) := { remote : W; trace : list event }.
Arguments remote {W} s.
Arguments trace {W} s.

Definition M (W A : Type) : Type := state W → result A * state W.

Definition ret {W A} (a : A) : M W A := λ st, (Ok a, st).

Definition bind {W A B} (m : M W A) (k : A → M W B) : M W B :=
  λ st, match m st with
        | (Ok a, st') => k a st'
        | (Raise e, st') => (Raise e, st')
        end.

Definition lift {W A} (r : result A) : M W A := λ st, (r, st).

Definition record {W} (ev : event) (st : state W) : state W :=
  {| remote := remote st; trace := trace st ++ [ev] |}.

Definition read {W A} (ev : event) (f : W → result A) : M W A :=
  λ st, (f (remote st), record ev st).

Definition write {W} (ev : event) (f : W → result W) : M W unit :=
  λ st, match f (remote st) with
        | Ok w => (Ok (), record ev {| remote := w; trace := trace st |})
        | Raise e => (Raise e, record ev st)
        end.

Definition print {W} (line : string) : M W unit :=
  λ st, (Ok (), record (EvPrint line) st).

Notation "x ←' m ; k" := (bind m (λ x, k))
  (at level 20, m at level 100, k at level 200, only parsing, right associativity).
Notation "m ;;' k" := (bind m (λ _, k))
  (at level 100, k at level 200, only parsing, right associativity).

(** [for x in xs: body(x)] *)
Fixpoint for_each {W A} (xs : list A) (body : A → M W unit) : M W unit :=
  match xs with
  | [] => ret ()
  | x :: xs' => body x ;;' for_each xs' body
  end.

(** A loop whose body updates a local variable [s]. *)
Fixpoint for_fold {W A S} (xs : list A) (s : S) (body : A → S → M W S) : M W S :=
  match xs with
  | [] => ret s
  | x :: xs' => s' ←' body x s; for_fold xs' s' body
  end.

(** Attribute access on what [get_contents] returned: a list has no
    [decoded_content]. *)
Definition the_file (c : Contents) : result ContentFile :=
  match c with
  | AFile f => Ok f
  | AListing _ => Raise AttributeError
  end.

(** Iteration over what [get_contents] returned: a single [ContentFile] is
    not iterable. *)
Definition entries (c : Contents) : result (list ContentFile) :=
  match c with
  | AListing l => Ok l
  | AFile _ => Raise TypeError
  end.

(** ** The script *)

Record Args := {
  source_env : option string;
  target_env : option string;
  action : option string;
}.

Definition ignore_tags_key (service : string) : string :=
  "argocd-image-updater.argoproj.io/" +:+ service +:+ ".ignore-tags".

(** [app['metadata']['annotations'][key] = '*']: the assignment mutates the
    annotations dict that [app] holds, so the updated dict is put back on the
    way out.  A document is a tree here: when a YAML alias makes another key
    hold the same dict, Python changes it under that key too, and the tree
    does not show that; nothing below is stated about keys outside
    [metadata.annotations]. *)
Definition pause_edit (key : string) (app : yaml) : result yaml :=
  metadata ← getitem app "metadata";
  annotations ← getitem metadata "annotations";
  annotations ← setitem annotations key (YStr "*");
  metadata ← setitem metadata "annotations" annotations;
  setitem app "metadata" metadata.

(** [app['metadata']['annotations'].pop(key, None)]; as for [pause_edit], a
    dict shared through a YAML alias is outside the tree. *)
Definition resume_edit (key : string) (app : yaml) : result yaml :=
  metadata ← getitem app "metadata";
  annotations ← getitem metadata "annotations";
  annotations ← pop annotations key;
  metadata ← setitem metadata "annotations" annotations;
  setitem app "metadata" metadata.

(** The inner loop of [get_versions]: every parameter named [image.tag]
    assigns [versions[service.name]]. *)
Fixpoint scan_parameters (service_name : string) (params : list yaml)
    (versions : gmap string yaml) : result (gmap string yaml) :=
  match params with
  | [] => Ok versions
  | param :: rest =>
      n ← getitem param "name";
      if eq_str n "image.tag" then
        v ← getitem param "value";
        scan_parameters service_name rest (<[service_name := v]> versions)
      else scan_parameters service_name rest versions
  end.

(** The inner loop of [update_versions]: parameters not named [image.tag]
    are appended to [new_params]. *)
Fixpoint keep_parameters (params : list yaml) (new_params : list yaml)
    : result (list yaml) :=
  match params with
  | [] => Ok new_params
  | param :: rest =>
      n ← getitem param "name";
      if negb (eq_str n "image.tag") then keep_parameters rest (new_params ++ [param])
      else keep_parameters rest new_params
  end.

Definition image_tag (v : yaml) : yaml :=
  YMap (<["name" := YStr "image.tag"]> (<["value" := v]> ∅)).

(** Lines 102 to 111 of [update_versions], for one service.  Line 111 assigns
    into the [helm] dict in place: an alias of that dict elsewhere in the
    document would change with it, which the tree does not show; nothing
    below is stated about keys outside [spec.source.helm.parameters]. *)
Definition update_edit (versions : gmap string yaml) (service_name : string)
    (app : yaml) : result yaml :=
  spec ← getitem app "spec";
  source ← getitem spec "source";
  helm ← getitem source "helm";
  parameters ← getitem helm "parameters";
  params ← iter parameters;
  new_params ← keep_parameters params [];
  v ← match versions !! service_name with
      | Some v => Ok v
      | None => Raise (KeyError service_name)
      end;
  let new_params := new_params ++ [image_tag v] in
  helm ← setitem helm "parameters" (YSeq new_params);
  source ← setitem source "helm" helm;
  spec ← setitem spec "source" source;
  setitem app "spec" spec.

Section Script.
Context {W : Type} `{!Github W} `{!Yaml}.

Definition get_contents (repo : Repository) (file_path : string)
    (ref : option string) : M W Contents :=
  read (EvGetContents file_path ref) (gh_get_contents repo file_path ref).

Definition update_file (repo : Repository)
    (file_path message content blob branch : string) : M W unit :=
  write (EvUpdateFile file_path message content blob branch)
        (gh_update_file repo file_path message content blob branch).

Definition updated_line (file_path branch : string) (repo : Repository) : string :=
  "Updated the " +:+ quoted file_path +:+ " file in the " +:+ quoted branch
    +:+ " branch of the " +:+ quoted (repo_name repo) +:+ " remote repository".

Definition pause (env : option string) (service : string) (repo : Repository)
    (branch : string) : M W unit :=
  let file_path := "environments/" +:+ fmt env +:+ "/" +:+ service +:+ "/application.yaml" in
  contents ←' get_contents repo file_path (Some (default_branch repo));
  contents ←' lift (the_file contents);
  app ←' lift (safe_load (decoded_content contents));
  let key := ignore_tags_key service in
  app ←' lift (pause_edit key app);
  let app_yaml := yaml_dump app in
  update_file repo (path contents) ("Pause " +:+ service +:+ " in " +:+ fmt env +:+ ".")
              app_yaml (sha contents) branch ;;'
  print (updated_line file_path branch repo).

Definition resume (env : option string) (service : string) (repo : Repository)
    (branch : string) : M W unit :=
  let file_path := "environments/" +:+ fmt env +:+ "/" +:+ service +:+ "/application.yaml" in
  contents ←' get_contents repo file_path (Some (default_branch repo));
  contents ←' lift (the_file contents);
  app ←' lift (safe_load (decoded_content contents));
  let key := ignore_tags_key service in
  app ←' lift (resume_edit key app);
  let app_yaml := yaml_dump app in
  update_file repo (path contents) ("Resume " +:+ service +:+ " in " +:+ fmt env +:+ ".")
              app_yaml (sha contents) branch ;;'
  print (updated_line file_path branch repo).

(** The body of the loop of [get_versions], for one [service]. *)
Definition read_version (env : option string) (repo : Repository)
    (service : ContentFile) (versions : gmap string yaml) : M W (gmap string yaml) :=
  let file_path :=
    path service +:+ "/.argocd-source-" +:+ name service +:+ "-" +:+ fmt env +:+ ".yaml" in
  contents ←' get_contents repo file_path (Some (default_branch repo));
  contents ←' lift (the_file contents);
  params ←' lift (safe_load (decoded_content contents));
  lift (helm ← getitem params "helm";
        parameters ← getitem helm "parameters";
        parameters ← iter parameters;
        scan_parameters (name service) parameters versions).

Definition get_versions (charts_dir : string) (env : option string)
    (repo : Repository) : M W (gmap string yaml) :=
  services ←' get_contents repo charts_dir None;
  services ←' lift (entries services);
  for_fold services ∅ (read_version env repo).

Definition update_versions (env : option string) (versions : gmap string yaml)
    (repo : Repository) (branch : string) : M W unit :=
  let target_dir := "environments/" +:+ fmt env in
  services ←' get_contents repo target_dir None;
  services ←' lift (entries services);
  for_each services (λ service,
    let file_path := path service +:+ "/application.yaml" in
    contents ←' get_contents repo file_path (Some (default_branch repo));
    contents ←' lift (the_file contents);
    app ←' lift (safe_load (decoded_content contents));
    app ←' lift (update_edit versions (name service) app);
    let app_yaml := yaml_dump app in
    update_file repo (path contents)
                ("Updated " +:+ name service +:+ " in " +:+ fmt env +:+ ".")
                app_yaml (sha contents) branch ;;'
    print (updated_line file_path branch repo)).

Definition create_branch (repo : Repository) (branch : string) : M W unit :=
  sb ←' read (EvGetBranch (default_branch repo)) (gh_get_branch repo (default_branch repo));
  write (EvCreateGitRef ("refs/heads/" +:+ branch) sb)
        (gh_create_git_ref repo ("refs/heads/" +:+ branch) sb) ;;'
  print ("Created a " +:+ quoted branch +:+ " branch in the "
           +:+ quoted (repo_name repo) +:+ " remote repository").

Definition create_pr (repo : Repository) (branch title : string) : M W unit :=
  let base := default_branch repo in
  write (EvCreatePull base branch title) (gh_create_pull repo base branch title) ;;'
  print ("Created a pull request in the " +:+ quoted (repo_name repo)
           +:+ " remote repository").

(** [os.environ['GITHUB_TOKEN']] raises [KeyError] before any call. *)
Definition get_repo (environ : gmap string string) (full_name : string)
    : M W Repository :=
  github_token ←' lift (match environ !! "GITHUB_TOKEN" with
                        | Some t => Ok t
                        | None => Raise (KeyError "GITHUB_TOKEN")
                        end);
  read (EvGetRepo full_name) (gh_get_repo github_token full_name).

(** [if cond: body] *)
Definition when (cond : bool) (body : M W unit) : M W unit :=
  if cond then body else ret ().

(** [main], with the process environment, the parsed arguments of
    [options()] and the current date as inputs. *)
Definition main (environ : gmap string string) (args : Args) (now : date)
    : M W unit :=
  repository ←' get_repo environ "antonputra/k8s";
  let today := strftime now in
  let env_dir := "environments/" +:+ fmt (target_env args) in
  when (bool_decide (action args = Some "pause")) (
    let new_branch := "pause-" +:+ fmt (target_env args) +:+ "-" +:+ today in
    create_branch repository new_branch ;;'
    services ←' get_contents repository env_dir None;
    services ←' lift (entries services);
    for_each services (λ svc,
      pause (target_env args) (name svc) repository new_branch) ;;'
    create_pr repository new_branch
              ("Freeze the " +:+ fmt (target_env args) +:+ " environment.")) ;;'
  when (bool_decide (action args = Some "resume")) (
    let new_branch := "resume-" +:+ fmt (target_env args) +:+ "-" +:+ today in
    create_branch repository new_branch ;;'
    services ←' get_contents repository env_dir None;
    services ←' lift (entries services);
    for_each services (λ svc,
      resume (target_env args) (name svc) repository new_branch) ;;'
    create_pr repository new_branch
              ("Unfreeze the " +:+ fmt (target_env args) +:+ " environment.")) ;;'
  when (bool_decide (action args = Some "push")) (
    let new_branch := "prod-push-" +:+ today in
    create_branch repository new_branch ;;'
    latest_versions ←' get_versions "helm-charts" (source_env args) repository;
    update_versions (target_env args) latest_versions repository new_branch ;;'
    create_pr repository new_branch "Production Push.").

End Script.

(** ** Reading documents: the vocabulary of the properties *)

(** [metadata.annotations] of a manifest, when it is a mapping. *)
Definition annotations_of (app : yaml) : option (gmap string yaml) :=
  match metadata ← getitem app "metadata"; getitem metadata "annotations" with
  | Ok (YMap annotations) => Some annotations
  | _ => None
  end.

(** [spec.source.helm.parameters] of a manifest, when it is a sequence. *)
Definition parameters_of (app : yaml) : option (list yaml) :=
  match spec ← getitem app "spec"; source ← getitem spec "source";
        helm ← getitem source "helm"; getitem helm "parameters" with
  | Ok (YSeq params) => Some params
  | _ => None
  end.

(** A parameter entry is a mapping with a [name]. *)
Definition named (param : yaml) : Prop := ∃ n, getitem param "name" = Ok n.

Definition is_image_tag (param : yaml) : bool :=
  match getitem param "name" with
  | Ok n => eq_str n "image.tag"
  | Raise _ => false
  end.

Definition tag_value (param : yaml) : option yaml :=
  if is_image_tag param then
    match getitem param "value" with
    | Ok v => Some v
    | Raise _ => None
    end
  else None.

(** The value of the last entry named [image.tag], if there is one. *)
Definition last_image_tag (params : list yaml) : option yaml :=
  last (omap tag_value params).

(** An entry [get_versions] can process: it has a [name], and a [value] when
    the name is [image.tag]. *)
Definition readable (param : yaml) : Prop :=
  named param ∧ (is_image_tag param → ∃ v, getitem param "value" = Ok v).

Definition tracking_file (env : option string) (service : ContentFile) : string :=
  path service +:+ "/.argocd-source-" +:+ name service +:+ "-" +:+ fmt env +:+ ".yaml".

(** The Helm parameters recorded for a service, as [get_versions] reads
    them from the default branch. *)
Definition tracked_parameters {W} `{!Github W} `{!Yaml} (repo : Repository)
    (env : option string) (w : W) (service : ContentFile) : result (list yaml) :=
  contents ← gh_get_contents repo (tracking_file env service)
                             (Some (default_branch repo)) w;
  contents ← the_file contents;
  params ← safe_load (decoded_content contents);
  helm ← getitem params "helm";
  parameters ← getitem helm "parameters";
  iter parameters.

(** The branch name of each action, in the words of the specification. *)
Definition branch_name (action : string) (target_env : option string)
    (today : string) : option string :=
  if decide (action = "pause") then Some ("pause-" +:+ fmt target_env +:+ "-" +:+ today)
  else if decide (action = "resume") then Some ("resume-" +:+ fmt target_env +:+ "-" +:+ today)
  else if decide (action = "push") then Some ("prod-push-" +:+ today)
  else None.

Definition created_ref (ev : event) : option (string * string) :=
  match ev with
  | EvCreateGitRef ref commit => Some (ref, commit)
  | _ => None
  end.

(** The calls that change the remote repository. *)
Definition mutation (ev : event) : Prop :=
  match ev with
  | EvCreateGitRef _ _ | EvUpdateFile _ _ _ _ _ | EvCreatePull _ _ _ => True
  | _ => False
  end.

Definition init {W} (w : W) : state W := {| remote := w; trace := [] |}.

(** The client refuses to create a ref for a branch that exists. *)
Definition refuses_existing_refs (W : Type) `{!Github W} : Prop :=
  ∀ repo branch head commit w,
    gh_get_branch repo branch w = Ok head →
    is_raise (gh_create_git_ref repo ("refs/heads/" +:+ branch) commit w).

(** What the script may record once its branch is created: no further ref,
    and file updates on that branch only. *)
Definition after_branch (branch : string) (ev : event) : Prop :=
  match ev with
  | EvCreateGitRef _ _ => False
  | EvUpdateFile _ _ _ _ b => b = branch
  | _ => True
  end.

(** [m] extends the trace with events that satisfy [P]. *)
Definition emits {W A} (P : event → Prop) (m : M W A) : Prop :=
  ∀ st, ∃ l, trace (m st).2 = trace st ++ l ∧ Forall P l.

(** [versions[n] = v] when there is a [v]. *)
Definition assign (n : string) (o : option yaml) (versions : gmap string yaml)
    : gmap string yaml :=
  match o with
  | Some v => <[n := v]> versions
  | None => versions
  end.

(** The mapping [get_versions] builds over a remote that does not change. *)
Fixpoint fold_versions {W} `{!Github W} `{!Yaml} (repo : Repository)
    (env : option string) (w : W) (services : list ContentFile)
    (versions : gmap string yaml) : result (gmap string yaml) :=
  match services with
  | [] => Ok versions
  | service :: rest =>
      params ← tracked_parameters repo env w service;
      versions ← scan_parameters (name service) params versions;
      fold_versions repo env w rest versions
  end.

(** ** An in-memory remote

    A small stand-in for the hosting service, used to run the script on
    concrete repositories: branches point to commits, a commit is a tree of
    paths. *)
Module Mock.

Record world := {
  heads : gmap string string;
  trees : gmap string (gmap string Contents);
  pulls : list (string * string * string);
}.

Definition not_found {A} : result A := Raise (GithubException 404).

Definition from_option {A} (o : option A) (e : exn) : result A :=
  match o with
  | Some a => Ok a
  | None => Raise e
  end.

Fixpoint strip_prefix (p s : string) : option string :=
  match p, s with
  | EmptyString, _ => Some s
  | String a p', String b s' => if decide (a = b) then strip_prefix p' s' else None
  | _, _ => None
  end.

Definition get_repo (token full_name : string) (w : world) : result Repository :=
  if decide (full_name = "antonputra/k8s")
  then Ok {| repo_name := "k8s"; default_branch := "main" |}
  else not_found.

Definition get_branch (repo : Repository) (branch : string) (w : world)
    : result string :=
  from_option (heads w !! branch) (GithubException 404).

Definition get_contents (repo : Repository) (file_path : string)
    (ref : option string) (w : world) : result Contents :=
  commit ← get_branch repo (default (default_branch repo) ref) w;
  tree ← from_option (trees w !! commit) (GithubException 404);
  from_option (tree !! file_path) (GithubException 404).

Definition create_git_ref (repo : Repository) (ref commit : string) (w : world)
    : result world :=
  branch ← from_option (strip_prefix "refs/heads/" ref) (GithubException 422);
  match heads w !! branch, trees w !! commit with
  | None, Some _ =>
      Ok {| heads := <[branch := commit]> (heads w); trees := trees w; pulls := pulls w |}
  | _, _ => Raise (GithubException 422)
  end.

Definition update_file (repo : Repository)
    (file_path message content blob branch : string) (w : world) : result world :=
  commit ← get_branch repo branch w;
  tree ← from_option (trees w !! commit) (GithubException 404);
  old ← from_option (tree !! file_path) (GithubException 404);
  match old with
  | AFile f =>
      if decide (sha f = blob) then
        let f' := {| path := path f; name := name f;
                     decoded_content := content; sha := content |} in
        let commit' := branch +:+ "@" +:+ pretty (size (trees w)) in
        Ok {| heads := <[branch := commit']> (heads w);
              trees := <[commit' := <[file_path := AFile f']> tree]> (trees w);
              pulls := pulls w |}
      else Raise (GithubException 409)
  | AListing _ => Raise (GithubException 422)
  end.

Definition create_pull (repo : Repository) (base head title : string) (w : world)
    : result world :=
  match heads w !! base, heads w !! head with
  | Some _, Some _ =>
      Ok {| heads := heads w; trees := trees w;
            pulls := pulls w ++ [(base, head, title)] |}
  | _, _ => Raise (GithubException 422)
  end.

#[export] Instance github : Github world := {|
  gh_get_repo := get_repo;
  gh_get_branch := get_branch;
  gh_get_contents := get_contents;
  gh_create_git_ref := create_git_ref;
  gh_update_file := update_file;
  gh_create_pull := create_pull;
|}.

(** Documents of the example repository. *)
Definition manifest (annotations : gmap string yaml) (params : list yaml) : yaml :=
  YMap (<["metadata" := YMap (<["annotations" := YMap annotations]> ∅)]>
        (<["spec" := YMap (<["source" := YMap (<["helm" :=
            YMap (<["parameters" := YSeq params]> ∅)]> ∅)]> ∅)]> ∅)).

Definition parameter (n v : string) : yaml :=
  YMap (<["name" := YStr n]> (<["value" := YStr v]> ∅)).

Definition tracking (params : list yaml) : yaml :=
  YMap (<["helm" := YMap (<["parameters" := YSeq params]> ∅)]> ∅).

Definition svc_manifest : yaml :=
  manifest (<["a" := YStr "1"]> ∅)
           [parameter "replicas" "3"; parameter "image.tag" "v1.0.0"].

(** A manifest of [svc] that is paused already. *)
Definition paused_manifest : yaml :=
  manifest (<[ignore_tags_key "svc" := YStr "*"]> ∅) [].

(** The stand-in for PyYAML knows the texts of the example repository;
    every dumped document has the same text. *)
Definition load (text : string) : result yaml :=
  if decide (text = "svc manifest") then Ok svc_manifest
  else if decide (text = "one tag") then
    Ok (tracking [parameter "image.tag" "v1.2.3"])
  else if decide (text = "two tags") then
    Ok (tracking [parameter "image.tag" "v1.2.3"; parameter "replicas" "3";
                  parameter "image.tag" "v1.2.4"])
  else if decide (text = "no tag") then
    Ok (tracking [parameter "replicas" "3"])
  else Raise YAMLError.

#[export] Instance codec : Yaml := {|
  safe_load := load;
  yaml_dump := λ _, "dumped";
|}.

Definition file (file_path file_name text : string) : ContentFile :=
  {| path := file_path; name := file_name; decoded_content := text; sha := text |}.

Definition dir (file_path file_name : string) : ContentFile :=
  {| path := file_path; name := file_name; decoded_content := ""; sha := "" |}.

(** A repository with one service [svc] in [dev] and [staging], whose
    tracking file in [dev] holds [text]. *)
Definition tree_with (text : string) : gmap string Contents :=
  <["environments/staging" := AListing [dir "environments/staging/svc" "svc"]]> (
  <["environments/staging/svc/application.yaml" :=
      AFile (file "environments/staging/svc/application.yaml" "application.yaml"
                  "svc manifest")]> (
  <["helm-charts" := AListing [dir "helm-charts/svc" "svc"]]> (
  <["helm-charts/svc/.argocd-source-svc-dev.yaml" :=
      AFile (file "helm-charts/svc/.argocd-source-svc-dev.yaml"
                  ".argocd-source-svc-dev.yaml" text)]> ∅))).

Definition repository_with (text : string) : world :=
  {| heads := <["main" := "c0"]> ∅;
     trees := <["c0" := tree_with text]> ∅;
     pulls := [] |}.

Definition k8s : Repository := {| repo_name := "k8s"; default_branch := "main" |}.

Definition environ : gmap string string := <["GITHUB_TOKEN" := "token"]> ∅.

Definition new_year : date := {| year := 2024; month := 1; day := 1 |}.

Definition args_for (a : string) : Args :=
  {| source_env := Some "dev"; target_env := Some "staging"; action := Some a |}.

End Mock.

(** ** Further vocabulary: pull requests, file updates, reads *)

Definition created_pull (ev : event) : option (string * string * string) :=
  match ev with
  | EvCreatePull base head title => Some (base, head, title)
  | _ => None
  end.

Definition updated_branch (ev : event) : option string :=
  match ev with
  | EvUpdateFile _ _ _ _ branch => Some branch
  | _ => None
  end.

(** The title of the pull request of each action. *)
Definition pr_title (action : string) (target_env : option string) : string :=
  if decide (action = "pause") then "Freeze the " +:+ fmt target_env +:+ " environment."
  else if decide (action = "resume") then
    "Unfreeze the " +:+ fmt target_env +:+ " environment."
  else "Production Push.".

(** [m] records, among its events, those that [f] selects: all of [xs] when
    it returns, a prefix of [xs] when it raises. *)
Definition records {W A X} (f : event → option X) (xs : list X) (m : M W A) : Prop :=
  ∀ st, ∃ l,
    trace (m st).2 = trace st ++ l ∧
    omap f l `prefix_of` xs ∧
    ∀ a, (m st).1 = Ok a → omap f l = xs.

(** A call that reads names the default branch, or no ref at all. *)
Definition reads_default (repo : Repository) (ev : event) : Prop :=
  match ev with
  | EvGetBranch branch => branch = default_branch repo
  | EvGetContents _ (Some ref) => ref = default_branch repo
  | _ => True
  end.

(** The reads of [get_versions] over a listing. *)
Definition version_reads (repo : Repository) (charts_dir : string)
    (env : option string) (services : list ContentFile) : list event :=
  EvGetContents charts_dir None
  :: ((λ service, EvGetContents (tracking_file env service) (Some (default_branch repo)))
        <$> services).

(** The date in the words of the specification, [YYYY-MM-DD]: four digits of
    the year, two of the month, two of the day. *)
Definition digit (n : N) : ascii := ascii_of_N (48 + n mod 10).

Definition two_digits (n : nat) : string :=
  let k := N.of_nat n in
  String (digit (k / 10)) (String (digit k) EmptyString).

Definition four_digits (n : nat) : string :=
  let k := N.of_nat n in
  String (digit (k / 1000))
         (String (digit (k / 100))
                 (String (digit (k / 10)) (String (digit k) EmptyString))).

Definition iso_date (d : date) : string :=
  four_digits (year d) +:+ "-" +:+ two_digits (month d) +:+ "-" +:+ two_digits (day d).


(** More documents for examples. *)
Module Examples.

(** A manifest without [metadata.annotations]. *)
Definition bare_manifest : yaml :=
  YMap (<["metadata" := YMap (<["name" := YStr "svc"]> ∅)]> ∅).

(** A manifest whose first parameter has no [name]. *)
Definition nameless_manifest : yaml :=
  Mock.manifest ∅ [YMap (<["value" := YStr "3"]> ∅)].

(** A repository whose default branch is called like the branch of a
    production push on 2024-01-01. *)
Definition taken : Mock.world :=
  {| Mock.heads := <["prod-push-2024-01-01" := "c1"]> (<["main" := "c0"]> ∅);
     Mock.trees := <["c1" := Mock.tree_with "one tag"]>
                     (<["c0" := Mock.tree_with "one tag"]> ∅);
     Mock.pulls := [] |}.

(** A stand-in for PyYAML that also knows the text of the paused
    manifest. *)
Definition load (text : string) : result yaml :=
  if decide (text = "paused manifest") then Ok Mock.paused_manifest
  else Mock.load text.

Definition codec : Yaml := {| safe_load := load; yaml_dump := λ _, "dumped" |}.

(** A repository with the manifest of [svc] in [dev], holding [text], and a
    working [branch] at the head of [main]. *)
Definition dev_tree (text : string) : gmap string Contents :=
  <["environments/dev" := AListing [Mock.dir "environments/dev/svc" "svc"]]> (
  <["environments/dev/svc/application.yaml" :=
      AFile (Mock.file "environments/dev/svc/application.yaml" "application.yaml"
                       text)]> ∅).

Definition dev_repository (text branch : string) : Mock.world :=
  {| Mock.heads := <[branch := "c0"]> (<["main" := "c0"]> ∅);
     Mock.trees := <["c0" := dev_tree text]> ∅;
     Mock.pulls := [] |}.

Definition autumn_day : date := {| year := 2026; month := 11; day := 4 |}.

End Examples.

(** ** Properties of the manifest edits *)

Lemma annotations_of_inv app annotations :
  annotations_of app = Some annotations →
  ∃ m metadata, app = YMap m ∧ m !! "metadata" = Some (YMap metadata) ∧
                metadata !! "annotations" = Some (YMap annotations).
Proof.
  unfold annotations_of. destruct app as [| | | | |m]; simpl; try discriminate.
  destruct (m !! "metadata") as [[| | | | |metadata]|] eqn:Hm; simpl; try discriminate.
  destruct (metadata !! "annotations") as [[| | | | |a]|] eqn:Ha; simpl; try discriminate.
  intros [= ->]. eauto.
Qed.

Lemma annotations_of_put m metadata annotations :
  annotations_of (YMap (<["metadata" := YMap (<["annotations" := YMap annotations]> metadata)]> m))
  = Some annotations.
Proof.
  unfold annotations_of. simpl. rewrite lookup_insert_eq. simpl.
  by rewrite lookup_insert_eq.
Qed.

Lemma pause_edit_ok key m metadata annotations :
  m !! "metadata" = Some (YMap metadata) →
  metadata !! "annotations" = Some (YMap annotations) →
  pause_edit key (YMap m)
  = Ok (YMap (<["metadata" := YMap (<["annotations" :=
            YMap (<[key := YStr "*"]> annotations)]> metadata)]> m)).
Proof. intros Hm Ha. unfold pause_edit. simpl. rewrite Hm. simpl. by rewrite Ha. Qed.

Lemma resume_edit_ok key m metadata annotations :
  m !! "metadata" = Some (YMap metadata) →
  metadata !! "annotations" = Some (YMap annotations) →
  resume_edit key (YMap m)
  = Ok (YMap (<["metadata" := YMap (<["annotations" :=
            YMap (delete key annotations)]> metadata)]> m)).
Proof. intros Hm Ha. unfold resume_edit. simpl. rewrite Hm. simpl. by rewrite Ha. Qed.

(** Putting back the value a key already has changes nothing, two levels
    deep. *)
Lemma put_back m metadata annotations :
  m !! "metadata" = Some (YMap metadata) →
  metadata !! "annotations" = Some (YMap annotations) →
  YMap (<["metadata" := YMap (<["annotations" := YMap annotations]> metadata)]> m) = YMap m.
Proof. intros Hm Ha. by rewrite (insert_id metadata), (insert_id m). Qed.

Section Serialised.
Context `{!Yaml}.

(** C6. Applying the pause edit to a manifest it has already been applied
    to returns the same document, hence the same serialised YAML. *)
Theorem pause_edit_idempotent key app app' :
  pause_edit key app = Ok app' →
  pause_edit key app' = Ok app' ∧
  ∀ app'', pause_edit key app' = Ok app'' → yaml_dump app'' = yaml_dump app'.
Proof.
  intros Hp.
  assert (pause_edit key app' = Ok app') as Hq.
  { unfold pause_edit in Hp.
    destruct app as [| | | | |m]; simpl in Hp; try discriminate.
    destruct (m !! "metadata") as [[| | | | |metadata]|] eqn:Hm;
      simpl in Hp; try discriminate.
    destruct (metadata !! "annotations") as [[| | | | |a]|] eqn:Ha;
      simpl in Hp; try discriminate.
    injection Hp as <-.
    erewrite pause_edit_ok by apply lookup_insert_eq.
    by rewrite !insert_insert_eq. }
  split; [done|]. intros app'' Hq'. congruence.
Qed.

End Serialised.

Lemma pause_edit_idempotent_witness :
  ∃ app',
    pause_edit (ignore_tags_key "svc") Mock.svc_manifest = Ok app' ∧
    pause_edit (ignore_tags_key "svc") app' = Ok app' ∧
    ∀ app'', pause_edit (ignore_tags_key "svc") app' = Ok app'' →
             @yaml_dump Mock.codec app'' = @yaml_dump Mock.codec app'.
Proof.
  eexists. split; [reflexivity|].
  apply (@pause_edit_idempotent Mock.codec (ignore_tags_key "svc") Mock.svc_manifest).
  reflexivity.
Defined.

(** C2, as the code has it. [pause] followed by [resume] leaves the
    annotations of the manifest without the key
    [argocd-image-updater.argoproj.io/{service}.ignore-tags]: the original
    mapping comes back exactly when the key was not in it before [pause], and
    then the whole manifest comes back. *)
Theorem pause_resume_round_trip service app annotations :
  annotations_of app = Some annotations →
  ∃ app1 app2,
    pause_edit (ignore_tags_key service) app = Ok app1 ∧
    resume_edit (ignore_tags_key service) app1 = Ok app2 ∧
    annotations_of app2 = Some (delete (ignore_tags_key service) annotations) ∧
    (annotations_of app2 = Some annotations ↔
     annotations !! ignore_tags_key service = None) ∧
    (annotations !! ignore_tags_key service = None → app2 = app).
Proof.
  intros (m & metadata & -> & Hm & Ha)%annotations_of_inv.
  set (key := ignore_tags_key service).
  assert (resume_edit key (YMap (<["metadata" := YMap (<["annotations" :=
            YMap (<[key := YStr "*"]> annotations)]> metadata)]> m))
          = Ok (YMap (<["metadata" := YMap (<["annotations" :=
                  YMap (delete key annotations)]> metadata)]> m))) as Hr.
  { erewrite resume_edit_ok by apply lookup_insert_eq.
    by rewrite delete_insert_eq, !insert_insert_eq. }
  eexists _, _. split; [by apply pause_edit_ok|]. split; [exact Hr|].
  split; [apply annotations_of_put|]. split.
  - rewrite annotations_of_put. split.
    + intros [= Hd]. rewrite <- Hd. apply lookup_delete_eq.
    + intros Hk. by rewrite delete_id.
  - intros Hk. rewrite delete_id by done. by apply put_back.
Qed.

Lemma pause_resume_round_trip_witness :
  ∃ app1 app2,
    pause_edit (ignore_tags_key "svc") Mock.svc_manifest = Ok app1 ∧
    resume_edit (ignore_tags_key "svc") app1 = Ok app2 ∧
    annotations_of app2 = Some (delete (ignore_tags_key "svc") (<["a" := YStr "1"]> ∅)) ∧
    (annotations_of app2 = Some (<["a" := YStr "1"]> ∅) ↔
     (<["a" := YStr "1"]> ∅ : gmap string yaml) !! ignore_tags_key "svc" = None) ∧
    ((<["a" := YStr "1"]> ∅ : gmap string yaml) !! ignore_tags_key "svc" = None →
     app2 = Mock.svc_manifest).
Proof.
  apply (pause_resume_round_trip "svc" Mock.svc_manifest). reflexivity.
Defined.

(** C2 as stated fails on a manifest that is paused already: [pause] then
    [resume] returns a manifest whose annotations are empty, not the original
    ones. *)
Lemma pause_resume_loses_existing_key :
  annotations_of Mock.paused_manifest = Some (<[ignore_tags_key "svc" := YStr "*"]> ∅) ∧
  ∃ app2,
    (app1 ← pause_edit (ignore_tags_key "svc") Mock.paused_manifest;
     resume_edit (ignore_tags_key "svc") app1) = Ok app2 ∧
    annotations_of app2 = Some ∅ ∧
    annotations_of app2 ≠ annotations_of Mock.paused_manifest.
Proof.
  split; [reflexivity|]. eexists. split; [reflexivity|]. split; [reflexivity|].
  intros H. apply (f_equal (λ o, o ≫= (.!! ignore_tags_key "svc"))) in H.
  vm_compute in H. discriminate.
Qed.

(** ** Properties of the parameter rewrite *)

Lemma parameters_of_inv app params :
  parameters_of app = Some params →
  ∃ m spec source helm,
    app = YMap m ∧ m !! "spec" = Some (YMap spec) ∧
    spec !! "source" = Some (YMap source) ∧ source !! "helm" = Some (YMap helm) ∧
    helm !! "parameters" = Some (YSeq params).
Proof.
  unfold parameters_of. destruct app as [| | | | |m]; simpl; try discriminate.
  destruct (m !! "spec") as [[| | | | |spec]|] eqn:H1; simpl; try discriminate.
  destruct (spec !! "source") as [[| | | | |source]|] eqn:H2; simpl; try discriminate.
  destruct (source !! "helm") as [[| | | | |helm]|] eqn:H3; simpl; try discriminate.
  destruct (helm !! "parameters") as [[| | | | l|]|] eqn:H4; simpl; try discriminate.
  intros [= ->]. eauto 10.
Qed.

Lemma parameters_of_put m spec source helm params :
  parameters_of (YMap (<["spec" := YMap (<["source" := YMap (<["helm" :=
     YMap (<["parameters" := YSeq params]> helm)]> source)]> spec)]> m)) = Some params.
Proof.
  unfold parameters_of. simpl. rewrite lookup_insert_eq. simpl.
  rewrite lookup_insert_eq. simpl. rewrite lookup_insert_eq. simpl.
  by rewrite lookup_insert_eq.
Qed.

Lemma is_image_tag_name param n :
  getitem param "name" = Ok n → is_image_tag param = eq_str n "image.tag".
Proof. unfold is_image_tag. by intros ->. Qed.

Lemma keep_parameters_filter params new_params :
  Forall named params →
  keep_parameters params new_params
  = Ok (new_params ++ filter (λ p, ¬ is_image_tag p) params).
Proof.
  intros Hn. revert new_params.
  induction Hn as [|param rest [n Hname] _ IH]; intros new_params; simpl.
  - by rewrite app_nil_r.
  - rewrite Hname. simpl. rewrite filter_cons.
    rewrite <- (is_image_tag_name _ _ Hname).
    destruct (decide (¬ is_image_tag param)) as [Hp|Hp];
      destruct (is_image_tag param); simpl.
    + exfalso. by apply Hp.
    + rewrite IH. by rewrite <- app_assoc.
    + apply IH.
    + exfalso. apply Hp. intros [].
Qed.

Lemma is_image_tag_image_tag v : is_image_tag (image_tag v) = true.
Proof. unfold is_image_tag, image_tag. simpl. by rewrite lookup_insert_eq. Qed.



(** ** Rules for traces *)

Section Traces.
Context {W : Type}.
Implicit Types (P : event → Prop) (st : state W).

Lemma emits_ret {A} P (a : A) : emits P (ret a : M W A).
Proof. intros st. exists []. by rewrite app_nil_r. Qed.

Lemma emits_lift {A} P (r : result A) : emits P (lift r : M W A).
Proof. intros st. exists []. by rewrite app_nil_r. Qed.

Lemma emits_bind {A B} P (m : M W A) (k : A → M W B) :
  emits P m → (∀ a, emits P (k a)) → emits P (bind m k).
Proof.
  intros Hm Hk st. unfold bind.
  destruct (Hm st) as (l1 & E1 & F1).
  destruct (m st) as [[a|e] st1]; simpl in *.
  - destruct (Hk a st1) as (l2 & E2 & F2).
    exists (l1 ++ l2). rewrite E2, E1, app_assoc. split; [done|].
    by apply Forall_app.
  - by exists l1.
Qed.

Lemma emits_read {A} P ev (f : W → result A) : P ev → emits P (read ev f).
Proof. intros Hev st. exists [ev]. split; [done|]. by constructor. Qed.

Lemma emits_write P ev (f : W → result W) : P ev → emits P (write ev f).
Proof.
  intros Hev st. exists [ev]. unfold write.
  destruct (f (remote st)); (split; [done|]); by constructor.
Qed.

Lemma emits_print P line : P (EvPrint line) → emits P (print line : M W unit).
Proof. intros Hev st. exists [EvPrint line]. split; [done|]. by constructor. Qed.

Lemma emits_for_each {A} P (xs : list A) (body : A → M W unit) :
  (∀ x, emits P (body x)) → emits P (for_each xs body).
Proof.
  intros Hb. induction xs as [|x xs IH]; simpl.
  - apply emits_ret.
  - apply emits_bind; [apply Hb | intros _; apply IH].
Qed.

Lemma emits_for_fold {A S} P (xs : list A) (s : S) (body : A → S → M W S) :
  (∀ x s, emits P (body x s)) → emits P (for_fold xs s body).
Proof.
  intros Hb. revert s. induction xs as [|x xs IH]; intros s; simpl.
  - apply emits_ret.
  - apply emits_bind; [apply Hb | intros s'; apply IH].
Qed.

Lemma emits_weaken {A} P Q (m : M W A) :
  (∀ ev, P ev → Q ev) → emits P m → emits Q m.
Proof.
  intros HPQ Hm st. destruct (Hm st) as (l & E & F).
  exists l. split; [done|]. eapply Forall_impl; eauto.
Qed.

(** Reads and prints leave the remote as it is. *)
Lemma read_run {A} ev (f : W → result A) st :
  read ev f st = (f (remote st), record ev st).
Proof. done. Qed.

Lemma bind_run {A B} (m : M W A) (k : A → M W B) st :
  bind m k st = match m st with
                | (Ok a, st') => k a st'
                | (Raise e, st') => (Raise e, st')
                end.
Proof. done. Qed.

Lemma bind_ret_l {A B} (a : A) (k : A → M W B) st : bind (ret a) k st = k a st.
Proof. done. Qed.

(** A continuation that records nothing does not change the trace. *)
Lemma bind_silent {A B} (m : M W A) (k : A → M W B) st :
  (∀ a st', trace (k a st').2 = trace st') →
  trace (bind m k st).2 = trace (m st).2.
Proof.
  intros Hk. unfold bind. destruct (m st) as [[a|e] st']; simpl; [apply Hk|done].
Qed.

End Traces.

Ltac emits_step :=
  first
    [ apply emits_ret
    | apply emits_lift
    | apply emits_read; exact I
    | apply emits_write; first [exact I | reflexivity]
    | apply emits_print; exact I
    | apply emits_for_each; intros
    | apply emits_for_fold; intros
    | apply emits_bind; [|intros] ].

Ltac emits_auto := cbv zeta; repeat emits_step.

(** ** What each function of the script records *)

Section Recorded.
Context {W : Type} `{!Github W} `{!Yaml}.

Lemma pause_emits env service repo branch :
  emits (after_branch branch) (pause env service repo branch : M W unit).
Proof. unfold pause, get_contents, update_file. emits_auto. Qed.

Lemma resume_emits env service repo branch :
  emits (after_branch branch) (resume env service repo branch : M W unit).
Proof. unfold resume, get_contents, update_file. emits_auto. Qed.

Lemma get_versions_emits charts_dir env repo :
  emits (λ ev, ∃ file_path ref, ev = EvGetContents file_path ref)
        (get_versions charts_dir env repo : M W _).
Proof.
  unfold get_versions, read_version, get_contents. cbv zeta.
  repeat first [ apply emits_read; by eexists _, _ | emits_step ].
Qed.

Lemma update_versions_emits env versions repo branch :
  emits (after_branch branch) (update_versions env versions repo branch : M W unit).
Proof. unfold update_versions, get_contents, update_file. emits_auto. Qed.

Lemma create_pr_emits repo branch title :
  emits (after_branch branch) (create_pr repo branch title : M W unit).
Proof. unfold create_pr. emits_auto. Qed.

End Recorded.

(** ** What [pause] and [resume] write

    The document handed to [update_file] is the dump of the edited manifest,
    written over the file that was read, on the branch given. *)

Section Written.
Context {W : Type} `{!Github W} `{!Yaml}.

(** X14. When the manifest of the service is read, loaded and edited,
    [pause] calls [update_file] with the path and blob of the file it read,
    the dump of the edited manifest and the branch it was given. *)
Lemma pause_writes_edit env service repo branch (st : state W) f app app' :
  gh_get_contents repo
    ("environments/" +:+ fmt env +:+ "/" +:+ service +:+ "/application.yaml")
    (Some (default_branch repo)) (remote st) = Ok (AFile f) →
  safe_load (decoded_content f) = Ok app →
  pause_edit (ignore_tags_key service) app = Ok app' →
  EvUpdateFile (path f) ("Pause " +:+ service +:+ " in " +:+ fmt env +:+ ".")
               (yaml_dump app') (sha f) branch
    ∈ trace (pause env service repo branch st).2.
Proof.
  intros Hc Hl He. unfold pause, get_contents, update_file. cbv zeta.
  unfold bind, read, write, lift, print. simpl. rewrite Hc. simpl.
  rewrite Hl. simpl. rewrite He. simpl.
  destruct (gh_update_file _ _ _ _ _ _ _); simpl; set_solver.
Qed.

(** X15. When the manifest of the service is read, loaded and edited,
    [resume] calls [update_file] with the path and blob of the file it read,
    the dump of the edited manifest and the branch it was given. *)
Lemma resume_writes_edit env service repo branch (st : state W) f app app' :
  gh_get_contents repo
    ("environments/" +:+ fmt env +:+ "/" +:+ service +:+ "/application.yaml")
    (Some (default_branch repo)) (remote st) = Ok (AFile f) →
  safe_load (decoded_content f) = Ok app →
  resume_edit (ignore_tags_key service) app = Ok app' →
  EvUpdateFile (path f) ("Resume " +:+ service +:+ " in " +:+ fmt env +:+ ".")
               (yaml_dump app') (sha f) branch
    ∈ trace (resume env service repo branch st).2.
Proof.
  intros Hc Hl He. unfold resume, get_contents, update_file. cbv zeta.
  unfold bind, read, write, lift, print. simpl. rewrite Hc. simpl.
  rewrite Hl. simpl. rewrite He. simpl.
  destruct (gh_update_file _ _ _ _ _ _ _); simpl; set_solver.
Qed.

End Written.

(** ** Properties of the version reader *)

Lemma last_image_tag_cons param params :
  last_image_tag (param :: params)
  = match last_image_tag params with
    | Some v => Some v
    | None => tag_value param
    end.
Proof.
  unfold last_image_tag. csimpl. destruct (tag_value param) as [v|]; csimpl.
  - apply last_cons.
  - by destruct (last (omap tag_value params)).
Qed.

Lemma last_image_tag_none params :
  Forall (λ p, ¬ is_image_tag p) params → last_image_tag params = None.
Proof.
  intros Hn. unfold last_image_tag.
  replace (omap tag_value params) with ([] : list yaml); [done|].
  induction Hn as [|p params Hp _ IH]; [done|]. csimpl.
  unfold tag_value at 1. by destruct (is_image_tag p); [destruct Hp|].
Qed.

Lemma last_image_tag_last before tag after v :
  is_image_tag tag → getitem tag "value" = Ok v →
  Forall (λ p, ¬ is_image_tag p) after →
  last_image_tag (before ++ tag :: after) = Some v.
Proof.
  intros Ht Hv Ha. induction before as [|p before IH]; simpl.
  - rewrite last_image_tag_cons, (last_image_tag_none _ Ha).
    unfold tag_value. destruct (is_image_tag tag); [|done]. by rewrite Hv.
  - by rewrite last_image_tag_cons, IH.
Qed.

Lemma assign_assign n v o versions :
  assign n o (<[n := v]> versions)
  = assign n (match o with Some v' => Some v' | None => Some v end) versions.
Proof. destruct o; simpl; [apply insert_insert_eq|done]. Qed.

(** The inner loop leaves [versions[service.name]] at the value of the last
    [image.tag] entry, when it returns. *)
Lemma scan_parameters_ok n params versions versions' :
  scan_parameters n params versions = Ok versions' →
  versions' = assign n (last_image_tag params) versions.
Proof.
  revert versions. induction params as [|p params IH]; intros versions; simpl.
  - by intros [= ->].
  - rewrite last_image_tag_cons. unfold tag_value, is_image_tag.
    destruct (getitem p "name") as [n'|]; simpl; [|done].
    destruct (eq_str n' "image.tag").
    + destruct (getitem p "value") as [v|]; simpl; [|done].
      intros ->%IH. apply assign_assign.
    + intros ->%IH. by destruct (last_image_tag params).
Qed.

(** It does return on entries it can process. *)
Lemma scan_parameters_total n params versions :
  Forall readable params → ∃ versions', scan_parameters n params versions = Ok versions'.
Proof.
  intros Hr. revert versions.
  induction Hr as [|p params [[n' Hn] Hv] _ IH]; intros versions; simpl; [by eexists|].
  rewrite Hn. simpl. unfold is_image_tag in Hv. rewrite Hn in Hv.
  destruct (eq_str n' "image.tag"); [|apply IH].
  destruct Hv as [v ->]; [done|]. apply IH.
Qed.

Lemma assign_lookup n o versions :
  assign n o versions !! n = match o with Some v => Some v | None => versions !! n end.
Proof. destruct o; simpl; [apply lookup_insert_eq|done]. Qed.

Lemma assign_lookup_ne n n' o versions :
  n ≠ n' → assign n o versions !! n' = versions !! n'.
Proof. intros Hn. destruct o; simpl; [by apply lookup_insert_ne|done]. Qed.

Section Versions.
Context {W : Type} `{!Github W} `{!Yaml}.
Implicit Types (st : state W) (services : list ContentFile).

Lemma read_version_run env repo service versions st :
  read_version env repo service versions st
  = (params ← tracked_parameters repo env (remote st) service;
     scan_parameters (name service) params versions,
     record (EvGetContents (tracking_file env service) (Some (default_branch repo))) st).
Proof.
  unfold read_version, tracked_parameters, get_contents, tracking_file.
  cbv zeta. rewrite bind_run, read_run.
  destruct (gh_get_contents _ _ _ _) as [c|e]; simpl; [|done].
  unfold bind, lift. destruct (the_file c) as [f|e]; simpl; [|done].
  destruct (safe_load _) as [doc|e]; simpl; [|done].
  destruct (getitem doc "helm") as [helm|e]; simpl; [|done].
  destruct (getitem helm "parameters") as [ps|e]; simpl; [|done].
  by destruct (iter ps).
Qed.

Lemma for_fold_read_version env repo services versions st :
  (for_fold services versions (read_version env repo) st).1
  = fold_versions repo env (remote st) services versions.
Proof.
  revert versions st. induction services as [|s services IH]; intros versions st;
    simpl; [done|].
  rewrite bind_run, read_version_run.
  destruct (tracked_parameters repo env (remote st) s) as [ps|e]; simpl; [|done].
  destruct (scan_parameters (name s) ps versions) as [vs|e]; simpl; [|done].
  by rewrite IH.
Qed.

Lemma get_versions_run charts_dir env repo services st :
  gh_get_contents repo charts_dir None (remote st) = Ok (AListing services) →
  (get_versions charts_dir env repo st).1
  = fold_versions repo env (remote st) services ∅.
Proof.
  intros Hl. unfold get_versions, get_contents.
  rewrite bind_run, read_run, Hl. simpl. unfold bind, lift. simpl.
  by rewrite for_fold_read_version.
Qed.

(** A service whose file cannot be read makes the loop raise. *)
Lemma fold_versions_raises repo env w services versions service :
  service ∈ services →
  is_raise (gh_get_contents repo (tracking_file env service)
                            (Some (default_branch repo)) w) →
  is_raise (fold_versions repo env w services versions).
Proof.
  intros Hin [e He]. revert versions.
  induction services as [|s services IH]; intros versions;
    [by apply elem_of_nil in Hin|].
  cbn [fold_versions]. apply elem_of_cons in Hin as [<-|Hin].
  - unfold tracked_parameters. rewrite He. simpl. by eexists.
  - destruct (tracked_parameters repo env w s) as [ps|e']; simpl; [|by eexists].
    destruct (scan_parameters (name s) ps versions) as [vs|e']; simpl; [|by eexists].
    by apply IH.
Qed.

(** When the loop returns, every service was read, names that are not
    listed keep their entry, and a listed name has the last [image.tag] of
    its file, or its old entry when the file has none. *)
Lemma fold_versions_ok repo env w services versions versions' :
  NoDup (name <$> services) →
  fold_versions repo env w services versions = Ok versions' →
  (∀ n, n ∉ name <$> services → versions' !! n = versions !! n) ∧
  ∀ service, service ∈ services →
    ∃ params, tracked_parameters repo env w service = Ok params ∧
      versions' !! name service
      = match last_image_tag params with
        | Some v => Some v
        | None => versions !! name service
        end.
Proof.
  revert versions. induction services as [|s services IH]; intros versions Hnd;
    cbn [fold_versions].
  - intros [= ->]. split; [done|]. intros service Hin. by apply elem_of_nil in Hin.
  - apply NoDup_cons in Hnd as [Hs Hnd].
    destruct (tracked_parameters repo env w s) as [ps|e] eqn:Hps; simpl; [|done].
    destruct (scan_parameters (name s) ps versions) as [vs|e] eqn:Hscan; simpl; [|done].
    apply scan_parameters_ok in Hscan as ->.
    intros [Hout Hin]%IH; [|done]. split.
    + intros n [Hn Hn']%not_elem_of_cons.
      rewrite Hout by done. by rewrite assign_lookup_ne.
    + intros service [->|Hservice]%elem_of_cons.
      * exists ps. split; [done|]. rewrite Hout by done. apply assign_lookup.
      * destruct (Hin service Hservice) as (params & Hp & Hl).
        exists params. split; [done|]. rewrite Hl.
        rewrite assign_lookup_ne; [done|].
        intros Heq. apply Hs. rewrite Heq. by apply list_elem_of_fmap_2.
Qed.

Lemma fold_versions_total repo env w services versions :
  (∀ service, service ∈ services →
     ∃ params, tracked_parameters repo env w service = Ok params ∧
               Forall readable params) →
  ∃ versions', fold_versions repo env w services versions = Ok versions'.
Proof.
  revert versions. induction services as [|s services IH]; intros versions Hall;
    cbn [fold_versions].
  - by eexists.
  - destruct (Hall s) as (ps & -> & Hr); [by left|]. simpl.
    destruct (scan_parameters_total (name s) ps versions Hr) as [vs ->]. simpl.
    apply IH. intros service Hin. apply Hall. by right.
Qed.

End Versions.

Section VersionReader.
Context {W : Type} `{!Github W} `{!Yaml}.

(** C3, as the code has it. [get_versions] raises when the source-tracking
    file of a service it enumerates cannot be read.  A file without a
    parameter named [image.tag] does not make it raise: when it returns,
    every enumerated service was read and is mapped to the last
    [image.tag] value of its file, and a service whose file has no such
    parameter is not in the mapping. *)
Theorem get_versions_missing_file_or_tag charts_dir env repo (st : state W) services :
  gh_get_contents repo charts_dir None (remote st) = Ok (AListing services) →
  (∀ service, service ∈ services →
     is_raise (gh_get_contents repo (tracking_file env service)
                               (Some (default_branch repo)) (remote st)) →
     is_raise (get_versions charts_dir env repo st).1) ∧
  (NoDup (name <$> services) →
   ∀ versions, (get_versions charts_dir env repo st).1 = Ok versions →
   ∀ service, service ∈ services →
     ∃ params, tracked_parameters repo env (remote st) service = Ok params ∧
       versions !! name service = last_image_tag params ∧
       (Forall (λ p, ¬ is_image_tag p) params → versions !! name service = None)).
Proof.
  intros Hl. rewrite (get_versions_run _ _ _ _ _ Hl). split.
  - intros service Hin Hr. by eapply fold_versions_raises.
  - intros Hnd versions Hok service Hin.
    destruct (fold_versions_ok _ _ _ _ _ _ Hnd Hok) as [_ Hall].
    destruct (Hall service Hin) as (params & Hp & Hv).
    rewrite lookup_empty in Hv.
    assert (versions !! name service = last_image_tag params) as Hv'.
    { rewrite Hv. by destruct (last_image_tag params). }
    exists params. split; [done|]. split; [done|].
    intros Hn. by rewrite Hv', last_image_tag_none.
Qed.

(** C10. When the source-tracking file of a service holds several
    parameters named [image.tag], [get_versions] maps the service to the
    value of the last of them. *)
Theorem get_versions_takes_last_image_tag charts_dir env repo (st : state W)
    services service before tag after v :
  gh_get_contents repo charts_dir None (remote st) = Ok (AListing services) →
  NoDup (name <$> services) →
  (∀ s, s ∈ services →
     ∃ params, tracked_parameters repo env (remote st) s = Ok params ∧
               Forall readable params) →
  service ∈ services →
  tracked_parameters repo env (remote st) service = Ok (before ++ tag :: after) →
  is_image_tag tag →
  getitem tag "value" = Ok v →
  Forall (λ p, ¬ is_image_tag p) after →
  ∃ versions,
    (get_versions charts_dir env repo st).1 = Ok versions ∧
    versions !! name service = Some v.
Proof.
  intros Hl Hnd Hall Hin Hps Htag Hv Hafter.
  rewrite (get_versions_run _ _ _ _ _ Hl).
  destruct (fold_versions_total repo env (remote st) services ∅ Hall) as [versions Hok].
  exists versions. split; [done|].
  destruct (fold_versions_ok _ _ _ _ _ _ Hnd Hok) as [_ Hspec].
  destruct (Hspec service Hin) as (params & Hp & Hlast).
  rewrite Hps in Hp. injection Hp as <-.
  by rewrite Hlast, (last_image_tag_last _ _ _ _ Htag Hv Hafter).
Qed.

End VersionReader.

Lemma get_versions_missing_file_or_tag_witness :
  (∀ service, service ∈ [Mock.dir "helm-charts/svc" "svc"] →
     is_raise (Mock.get_contents Mock.k8s (tracking_file (Some "dev") service)
                                 (Some "main") (Mock.repository_with "no tag")) →
     is_raise (@get_versions _ Mock.github Mock.codec "helm-charts" (Some "dev") Mock.k8s
                            (init (Mock.repository_with "no tag"))).1) ∧
  (NoDup (name <$> [Mock.dir "helm-charts/svc" "svc"]) →
   ∀ versions,
     (@get_versions _ Mock.github Mock.codec "helm-charts" (Some "dev") Mock.k8s
                   (init (Mock.repository_with "no tag"))).1 = Ok versions →
   ∀ service, service ∈ [Mock.dir "helm-charts/svc" "svc"] →
     ∃ params,
       @tracked_parameters _ Mock.github Mock.codec Mock.k8s (Some "dev")
                           (Mock.repository_with "no tag") service = Ok params ∧
       versions !! name service = last_image_tag params ∧
       (Forall (λ p, ¬ is_image_tag p) params → versions !! name service = None)).
Proof.
  apply (@get_versions_missing_file_or_tag _ Mock.github Mock.codec "helm-charts"
           (Some "dev") Mock.k8s (init (Mock.repository_with "no tag"))
           [Mock.dir "helm-charts/svc" "svc"]).
  reflexivity.
Defined.

(** C3 as stated fails on a service whose source-tracking file has no
    [image.tag] parameter: [get_versions] returns, and the mapping it returns
    has no tag for the service. *)
Lemma get_versions_returns_without_tag :
  @tracked_parameters _ Mock.github Mock.codec Mock.k8s (Some "dev")
      (Mock.repository_with "no tag") (Mock.dir "helm-charts/svc" "svc")
  = Ok [Mock.parameter "replicas" "3"] ∧
  (@get_versions _ Mock.github Mock.codec "helm-charts" (Some "dev") Mock.k8s
                 (init (Mock.repository_with "no tag"))).1 = Ok ∅ ∧
  ¬ (is_raise (@get_versions _ Mock.github Mock.codec "helm-charts" (Some "dev") Mock.k8s
                             (init (Mock.repository_with "no tag"))).1 ∨
     ∃ versions v,
       (@get_versions _ Mock.github Mock.codec "helm-charts" (Some "dev") Mock.k8s
                      (init (Mock.repository_with "no tag"))).1 = Ok versions ∧
       versions !! "svc" = Some v).
Proof.
  assert ((@get_versions _ Mock.github Mock.codec "helm-charts" (Some "dev") Mock.k8s
                         (init (Mock.repository_with "no tag"))).1 = Ok ∅) as Hrun
    by reflexivity.
  split; [reflexivity|]. split; [exact Hrun|]. rewrite Hrun.
  intros [[e He]|(versions & v & [= <-] & Hv)]; [discriminate|].
  by rewrite lookup_empty in Hv.
Qed.

Lemma get_versions_takes_last_image_tag_witness :
  ∃ versions,
    (@get_versions _ Mock.github Mock.codec "helm-charts" (Some "dev") Mock.k8s
                   (init (Mock.repository_with "two tags"))).1 = Ok versions ∧
    versions !! "svc" = Some (YStr "v1.2.4").
Proof.
  apply (@get_versions_takes_last_image_tag _ Mock.github Mock.codec "helm-charts"
           (Some "dev") Mock.k8s (init (Mock.repository_with "two tags"))
           [Mock.dir "helm-charts/svc" "svc"] (Mock.dir "helm-charts/svc" "svc")
           [Mock.parameter "image.tag" "v1.2.3"; Mock.parameter "replicas" "3"]
           (Mock.parameter "image.tag" "v1.2.4") [] (YStr "v1.2.4")).
  - reflexivity.
  - apply NoDup_singleton.
  - intros s ->%list_elem_of_singleton. eexists. split; [reflexivity|].
    repeat constructor; try by eexists.
  - by left.
  - reflexivity.
  - exact I.
  - reflexivity.
  - constructor.
Defined.

(** ** Properties of the entry point *)

Section Main.
Context {W : Type} `{!Github W} `{!Yaml}.
Implicit Types (st : state W) (w : W).

Lemma get_repo_run environ full_name token st :
  environ !! "GITHUB_TOKEN" = Some token →
  get_repo environ full_name st
  = (gh_get_repo token full_name (remote st), record (EvGetRepo full_name) st).
Proof. intros Ht. unfold get_repo, bind, lift. by rewrite Ht. Qed.

(** What [create_branch] and the code after it record. *)
Lemma create_branch_then repo branch (rest : M W unit) st :
  emits (after_branch branch) rest →
  match gh_get_branch repo (default_branch repo) (remote st) with
  | Raise _ =>
      trace (bind (create_branch repo branch) (λ _, rest) st).2
      = trace st ++ [EvGetBranch (default_branch repo)]
  | Ok head =>
      ∃ l,
        trace (bind (create_branch repo branch) (λ _, rest) st).2
        = trace st ++ [EvGetBranch (default_branch repo);
                       EvCreateGitRef ("refs/heads/" +:+ branch) head] ++ l ∧
        match gh_create_git_ref repo ("refs/heads/" +:+ branch) head (remote st) with
        | Raise _ => l = []
        | Ok _ => Forall (after_branch branch) l
        end
  end.
Proof.
  intros Hrest. unfold create_branch, bind, read, write, print. simpl.
  destruct (gh_get_branch _ _ _) as [head|e]; simpl; [|done].
  destruct (gh_create_git_ref _ _ _ _) as [w'|e]; simpl.
  - match goal with |- context [rest ?s] => destruct (Hrest s) as (l & E & F) end.
    eexists (EvPrint _ :: l). split.
    + rewrite E. simpl. by rewrite <- !app_assoc.
    + by constructor.
  - exists []. split; [|done]. simpl. by rewrite <- !app_assoc.
Qed.

Lemma pause_all_emits env repo branch title :
  emits (after_branch branch)
    (services ←' get_contents repo ("environments/" +:+ fmt env) None;
     services ←' lift (entries services);
     for_each services (λ svc, pause env (name svc) repo branch) ;;'
     create_pr repo branch title : M W unit).
Proof.
  unfold get_contents. emits_auto; first [apply pause_emits | apply create_pr_emits].
Qed.

Lemma resume_all_emits env repo branch title :
  emits (after_branch branch)
    (services ←' get_contents repo ("environments/" +:+ fmt env) None;
     services ←' lift (entries services);
     for_each services (λ svc, resume env (name svc) repo branch) ;;'
     create_pr repo branch title : M W unit).
Proof.
  unfold get_contents. emits_auto; first [apply resume_emits | apply create_pr_emits].
Qed.

Lemma push_emits source target repo branch title :
  emits (after_branch branch)
    (latest_versions ←' get_versions "helm-charts" source repo;
     update_versions target latest_versions repo branch ;;'
     create_pr repo branch title : M W unit).
Proof.
  apply emits_bind.
  - eapply emits_weaken; [|apply get_versions_emits]. by intros ev (? & ? & ->).
  - intros versions. apply emits_bind; [apply update_versions_emits|].
    intros _. apply create_pr_emits.
Qed.

(** The trace of [main], from a token and a repository. *)
Lemma main_trace environ args now w token repo :
  environ !! "GITHUB_TOKEN" = Some token →
  gh_get_repo token "antonputra/k8s" w = Ok repo →
  match action args ≫= λ a, branch_name a (target_env args) (strftime now) with
  | None =>
      trace (main environ args now (init w)).2 = [EvGetRepo "antonputra/k8s"] ∧
      remote (main environ args now (init w)).2 = w
  | Some branch =>
      match gh_get_branch repo (default_branch repo) w with
      | Raise _ =>
          trace (main environ args now (init w)).2
          = [EvGetRepo "antonputra/k8s"; EvGetBranch (default_branch repo)]
      | Ok head =>
          ∃ l,
            trace (main environ args now (init w)).2
            = [EvGetRepo "antonputra/k8s"; EvGetBranch (default_branch repo);
               EvCreateGitRef ("refs/heads/" +:+ branch) head] ++ l ∧
            match gh_create_git_ref repo ("refs/heads/" +:+ branch) head w with
            | Raise _ => l = []
            | Ok _ => Forall (after_branch branch) l
            end
      end
  end.
Proof.
  intros Ht Hrepo. unfold main.
  rewrite bind_run, (get_repo_run _ _ _ _ Ht). simpl remote. rewrite Hrepo.
  cbv zeta. unfold branch_name.
  destruct (action args) as [a|]; simpl mbind.
  2: { rewrite !bool_decide_false by done. done. }
  destruct (decide (a = "pause")) as [->|Hpause].
  { rewrite bool_decide_true by done. rewrite !bool_decide_false by done.
    unfold when. rewrite bind_silent by done.
    apply (create_branch_then repo _ _ (record (EvGetRepo "antonputra/k8s") (init w))).
    apply pause_all_emits. }
  destruct (decide (a = "resume")) as [->|Hresume].
  { rewrite (bool_decide_true (Some "resume" = Some "resume")) by done.
    rewrite !bool_decide_false by done.
    unfold when. rewrite bind_ret_l, bind_silent by done.
    apply (create_branch_then repo _ _ (record (EvGetRepo "antonputra/k8s") (init w))).
    apply resume_all_emits. }
  destruct (decide (a = "push")) as [->|Hpush].
  { rewrite (bool_decide_true (Some "push" = Some "push")) by done.
    rewrite !bool_decide_false by done.
    unfold when. rewrite !bind_ret_l.
    apply (create_branch_then repo _ _ (record (EvGetRepo "antonputra/k8s") (init w))).
    apply push_emits. }
  rewrite !bool_decide_false by congruence. done.
Qed.

End Main.

Lemma after_branch_no_ref branch l :
  Forall (after_branch branch) l → omap created_ref l = [].
Proof.
  induction 1 as [|ev l Hev _ IH]; [done|]. csimpl.
  destruct ev; simpl in *; try done.
Qed.

Lemma strip_prefix_app p s : Mock.strip_prefix p (p +:+ s) = Some s.
Proof.
  induction p as [|c p IH]; simpl; [by destruct s|].
  by rewrite decide_True.
Qed.

(** The in-memory remote refuses to create a ref for a branch it has. *)
Lemma mock_refuses_existing_refs : @refuses_existing_refs Mock.world Mock.github.
Proof.
  intros repo branch head commit w Hb. simpl in *.
  unfold Mock.get_branch in Hb. unfold Mock.create_git_ref.
  rewrite strip_prefix_app. simpl.
  destruct (Mock.heads w !! branch); [|discriminate].
  by eexists.
Qed.

(** ** The date in a branch name *)

Lemma length_append s1 s2 :
  String.length (s1 +:+ s2) = String.length s1 + String.length s2.
Proof. induction s1 as [|c s1 IH]; simpl; [done|]. by rewrite IH. Qed.

Lemma pad2_digits n : n < 100 → pad2 n = two_digits n.
Proof.
  intros Hn.
  assert (forallb (λ k, String.eqb (pad2 k) (two_digits k)) (seq 0 100) = true) as Hall
    by (vm_compute; reflexivity).
  rewrite forallb_forall in Hall.
  apply String.eqb_eq, Hall, in_seq. lia.
Qed.

Lemma pad4_digits n : n < 10000 → pad4 n = four_digits n.
Proof.
  intros Hn.
  assert (forallb (λ k, String.eqb (pad4 k) (four_digits k)) (seq 0 10000) = true)
    as Hall by (vm_compute; reflexivity).
  rewrite forallb_forall in Hall.
  apply String.eqb_eq, Hall, in_seq. lia.
Qed.

Lemma pad2_length n : n < 100 → String.length (pad2 n) = 2.
Proof. intros Hn. by rewrite (pad2_digits _ Hn). Qed.

Lemma pad4_length n : n < 10000 → String.length (pad4 n) = 4.
Proof. intros Hn. by rewrite (pad4_digits _ Hn). Qed.

(** [%Y-%m-%d] is ten characters, with the dashes after the year and after
    the month. *)
Lemma strftime_shape d :
  year d < 10000 → month d < 100 → day d < 100 →
  String.length (strftime d) = 10 ∧
  String.get 4 (strftime d) = Some "-"%char ∧
  String.get 7 (strftime d) = Some "-"%char.
Proof.
  intros Hy Hm Hd. unfold strftime.
  pose proof (pad4_length _ Hy) as Ly. pose proof (pad2_length _ Hm) as Lm.
  pose proof (pad2_length _ Hd) as Ld.
  split; [|split].
  - by rewrite !length_append, Ly, Lm, Ld.
  - pose proof (String.append_correct2 (pad4 (year d))
                  ("-" +:+ pad2 (month d) +:+ "-" +:+ pad2 (day d)) 0) as E.
    rewrite Ly in E. simpl Nat.add in E. by rewrite <- E.
  - pose proof (String.append_correct2 (pad4 (year d))
                  ("-" +:+ pad2 (month d) +:+ "-" +:+ pad2 (day d)) 3) as E.
    rewrite Ly in E. simpl Nat.add in E. rewrite <- E.
    pose proof (String.append_correct2 (pad2 (month d)) ("-" +:+ pad2 (day d)) 0) as E'.
    rewrite Lm in E'. simpl Nat.add in E'.
    change (String.get 2 (pad2 (month d) +:+ "-" +:+ pad2 (day d)) = Some "-"%char).
    by rewrite <- E'.
Qed.

(** [strftime('%Y-%m-%d')] writes the date as [YYYY-MM-DD]. *)
Lemma strftime_iso d :
  year d < 10000 → month d < 100 → day d < 100 → strftime d = iso_date d.
Proof.
  intros Hy Hm Hd. unfold strftime, iso_date.
  by rewrite (pad4_digits _ Hy), (pad2_digits _ Hm), (pad2_digits _ Hd).
Qed.

Section EntryPoint.
Context {W : Type} `{!Github W} `{!Yaml}.
Implicit Types (st : state W) (w : W).

(** C9. With an action that is none of [pause], [resume] and [push],
    [main] leaves the remote repository as it is and records no call that
    changes it: no branch, no file update, no pull request. *)
Theorem unknown_action_changes_nothing environ args now st :
  action args ≠ Some "pause" →
  action args ≠ Some "resume" →
  action args ≠ Some "push" →
  remote (main environ args now st).2 = remote st ∧
  ∃ l,
    trace (main environ args now st).2 = trace st ++ l ∧
    Forall (λ ev, ¬ mutation ev) l.
Proof.
  intros H1 H2 H3. unfold main. rewrite !bool_decide_false by done.
  unfold when, get_repo, bind, lift, read, ret.
  destruct (environ !! "GITHUB_TOKEN") as [token|]; simpl.
  - destruct (gh_get_repo _ _ _); simpl;
      (split; [done|]); eexists [_]; (split; [done|]); repeat constructor; by intros [].
  - split; [done|]. exists []. by rewrite app_nil_r.
Qed.

(** C8. The branch [main] creates is named after the action, the target
    environment and the date: [pause-{target_env}-{date}],
    [resume-{target_env}-{date}] or [prod-push-{date}]; it is the only ref
    created, and it points to the head of the default branch.  The date is
    the current date written [YYYY-MM-DD]. *)
Theorem branch_names environ args now w token repo head a :
  environ !! "GITHUB_TOKEN" = Some token →
  gh_get_repo token "antonputra/k8s" w = Ok repo →
  gh_get_branch repo (default_branch repo) w = Ok head →
  action args = Some a →
  omap created_ref (trace (main environ args now (init w)).2)
  = match branch_name a (target_env args) (strftime now) with
    | Some branch => [("refs/heads/" +:+ branch, head)]
    | None => []
    end ∧
  (year now < 10000 → 1 ≤ month now ≤ 12 → 1 ≤ day now ≤ 31 →
   strftime now = iso_date now ∧
   omap created_ref (trace (main environ args now (init w)).2)
   = match branch_name a (target_env args) (iso_date now) with
     | Some branch => [("refs/heads/" +:+ branch, head)]
     | None => []
     end).
Proof.
  intros Ht Hrepo Hhead Ha.
  assert (omap created_ref (trace (main environ args now (init w)).2)
          = match branch_name a (target_env args) (strftime now) with
            | Some branch => [("refs/heads/" +:+ branch, head)]
            | None => []
            end) as Hrefs.
  { pose proof (main_trace environ args now w token repo Ht Hrepo) as Hm.
    rewrite Ha in Hm. simpl in Hm.
    destruct (branch_name a (target_env args) (strftime now)) as [branch|].
    - rewrite Hhead in Hm. destruct Hm as (l & -> & Hl). csimpl.
      replace (omap created_ref l) with ([] : list (string * string)); [done|].
      destruct (gh_create_git_ref _ _ _ _).
      + symmetry. by eapply after_branch_no_ref.
      + by subst l.
    - by destruct Hm as [-> _]. }
  split; [exact Hrefs|].
  intros Hy Hmonth Hday.
  assert (strftime now = iso_date now) as Hiso
    by (apply strftime_iso; [exact Hy|lia|lia]).
  split; [exact Hiso|]. by rewrite <- Hiso.
Qed.

Lemma main_trace_without_repository environ args now w :
  environ !! "GITHUB_TOKEN" = None ∨
  (∃ token, environ !! "GITHUB_TOKEN" = Some token ∧
            is_raise (gh_get_repo token "antonputra/k8s" w)) →
  Forall (λ ev, ¬ mutation ev) (trace (main environ args now (init w)).2).
Proof.
  unfold main, get_repo, bind, lift, read.
  intros [->|(token & -> & e & He)]; simpl; [done|].
  rewrite He. simpl. repeat constructor. by intros [].
Qed.

(** C4. Every file update [main] makes is on the branch it created from
    the head of the default branch: the ref was created, with success,
    before any update, and nothing changes the remote before the ref is
    created.  With a client that refuses to create a ref for a branch that
    exists, that branch is not the default branch, which is only read. *)
Theorem writes_target_the_new_branch environ args now w
    file_path message content blob branch :
  EvUpdateFile file_path message content blob branch
    ∈ trace (main environ args now (init w)).2 →
  ∃ token repo head w' before after,
    environ !! "GITHUB_TOKEN" = Some token ∧
    gh_get_repo token "antonputra/k8s" w = Ok repo ∧
    gh_get_branch repo (default_branch repo) w = Ok head ∧
    gh_create_git_ref repo ("refs/heads/" +:+ branch) head w = Ok w' ∧
    (refuses_existing_refs W → branch ≠ default_branch repo) ∧
    trace (main environ args now (init w)).2
    = before ++ EvCreateGitRef ("refs/heads/" +:+ branch) head :: after ∧
    Forall (λ ev, ¬ mutation ev) before ∧
    Forall (after_branch branch) after.
Proof.
  intros Hin.
  assert (∀ l, Forall (λ ev, ¬ mutation ev) l →
               EvUpdateFile file_path message content blob branch ∈ l → False) as Hno.
  { intros l Hl Hev. rewrite Forall_forall in Hl. by apply (Hl _ Hev). }
  destruct (environ !! "GITHUB_TOKEN") as [token|] eqn:Ht.
  2: { exfalso. eapply Hno; [|exact Hin]. apply main_trace_without_repository. by left. }
  destruct (gh_get_repo token "antonputra/k8s" w) as [repo|e] eqn:Hrepo.
  2: { exfalso. eapply Hno; [|exact Hin]. apply main_trace_without_repository.
       right. exists token. split; [done|]. by exists e. }
  pose proof (main_trace environ args now w token repo Ht Hrepo) as Hm.
  destruct (action args ≫= _) as [branch'|].
  2: { destruct Hm as [Hm _]. rewrite Hm in Hin.
       exfalso. eapply Hno; [|exact Hin]. repeat constructor. by intros []. }
  destruct (gh_get_branch repo (default_branch repo) w) as [head|e] eqn:Hhead.
  2: { rewrite Hm in Hin. exfalso. eapply Hno; [|exact Hin].
       repeat constructor; by intros []. }
  destruct Hm as (l & Hm & Hl). rewrite Hm in Hin.
  destruct (gh_create_git_ref repo ("refs/heads/" +:+ branch') head w)
    as [w'|e] eqn:Hcreate.
  2: { subst l. rewrite app_nil_r in Hin.
       repeat (apply elem_of_cons in Hin as [Hin|Hin]; [discriminate|]).
       by apply elem_of_nil in Hin. }
  assert (branch = branch') as ->.
  { apply elem_of_app in Hin as [Hin|Hin].
    - repeat (apply elem_of_cons in Hin as [Hin|Hin]; [discriminate|]).
      by apply elem_of_nil in Hin.
    - rewrite Forall_forall in Hl. by apply (Hl _ Hin). }
  exists token, repo, head, w',
    [EvGetRepo "antonputra/k8s"; EvGetBranch (default_branch repo)], l.
  split; [done|]. split; [done|]. split; [done|]. split; [done|]. split.
  { intros Hrefuse Heq. rewrite Heq in Hcreate.
    destruct (Hrefuse repo _ head head w Hhead) as [e He]. congruence. }
  split; [by rewrite Hm|]. split; [|done].
  repeat constructor; by intros [].
Qed.

End EntryPoint.

Lemma unknown_action_changes_nothing_witness :
  remote (@main _ Mock.github Mock.codec Mock.environ (Mock.args_for "deploy")
                Mock.new_year (init (Mock.repository_with "one tag"))).2
  = Mock.repository_with "one tag" ∧
  ∃ l,
    trace (@main _ Mock.github Mock.codec Mock.environ (Mock.args_for "deploy")
                 Mock.new_year (init (Mock.repository_with "one tag"))).2 = [] ++ l ∧
    Forall (λ ev, ¬ mutation ev) l.
Proof.
  apply (@unknown_action_changes_nothing _ Mock.github Mock.codec Mock.environ
           (Mock.args_for "deploy") Mock.new_year (init (Mock.repository_with "one tag")));
    discriminate.
Defined.

Lemma branch_names_scenario :
  (omap created_ref
        (trace (@main _ Mock.github Mock.codec Mock.environ (Mock.args_for "pause")
                      Mock.new_year (init (Mock.repository_with "one tag"))).2)
   = [("refs/heads/pause-staging-2024-01-01", "c0")] ∧
   strftime Mock.new_year = "2024-01-01") ∧
  (omap created_ref
        (trace (@main _ Mock.github Mock.codec Mock.environ (Mock.args_for "push")
                      Examples.autumn_day (init (Mock.repository_with "one tag"))).2)
   = [("refs/heads/prod-push-2026-11-04", "c0")] ∧
   strftime Examples.autumn_day = "2026-11-04").
Proof.
  split.
  - destruct (@branch_names _ Mock.github Mock.codec Mock.environ (Mock.args_for "pause")
                Mock.new_year (Mock.repository_with "one tag") "token" Mock.k8s "c0"
                "pause" eq_refl eq_refl eq_refl eq_refl) as [_ Hdate].
    destruct Hdate as [Hiso Hrefs];
      [apply Nat.ltb_lt; reflexivity | simpl; lia | simpl; lia |].
    split; [exact Hrefs|exact Hiso].
  - destruct (@branch_names _ Mock.github Mock.codec Mock.environ (Mock.args_for "push")
                Examples.autumn_day (Mock.repository_with "one tag") "token" Mock.k8s
                "c0" "push" eq_refl eq_refl eq_refl eq_refl) as [_ Hdate].
    destruct Hdate as [Hiso Hrefs];
      [apply Nat.ltb_lt; reflexivity | simpl; lia | simpl; lia |].
    split; [exact Hrefs|exact Hiso].
Defined.

Lemma writes_target_the_new_branch_witness :
  ∃ token repo head w' before after,
    Mock.environ !! "GITHUB_TOKEN" = Some token ∧
    Mock.get_repo token "antonputra/k8s" (Mock.repository_with "one tag") = Ok repo ∧
    Mock.get_branch repo (default_branch repo) (Mock.repository_with "one tag") = Ok head ∧
    Mock.create_git_ref repo "refs/heads/prod-push-2024-01-01" head
                        (Mock.repository_with "one tag") = Ok w' ∧
    "prod-push-2024-01-01" ≠ default_branch repo ∧
    trace (@main _ Mock.github Mock.codec Mock.environ (Mock.args_for "push")
                 Mock.new_year (init (Mock.repository_with "one tag"))).2
    = before ++ EvCreateGitRef "refs/heads/prod-push-2024-01-01" head :: after ∧
    Forall (λ ev, ¬ mutation ev) before ∧
    Forall (after_branch "prod-push-2024-01-01") after.
Proof.
  destruct (@writes_target_the_new_branch _ Mock.github Mock.codec Mock.environ
              (Mock.args_for "push") Mock.new_year (Mock.repository_with "one tag")
              "environments/staging/svc/application.yaml" "Updated svc in staging."
              "dumped" "svc manifest" "prod-push-2024-01-01")
    as (token & repo & head & w' & before & after
        & Ht & Hrepo & Hhead & Hcreate & Hfresh & Htrace & Hbefore & Hafter).
  { vm_compute. repeat constructor. }
  exists token, repo, head, w', before, after.
  repeat split; try assumption.
  apply Hfresh, mock_refuses_existing_refs.
Defined.

(** ** Further properties of the annotation edits *)

Lemma annotations_of_some_edit key app :
  (∃ app', pause_edit key app = Ok app') ∨ (∃ app', resume_edit key app = Ok app') →
  is_Some (annotations_of app).
Proof.
  unfold pause_edit, resume_edit, annotations_of.
  destruct app as [| | | | |m]; simpl; try by intros [[? ?]|[? ?]].
  destruct (m !! "metadata") as [[| | | | |metadata]|]; simpl;
    try by intros [[? ?]|[? ?]].
  destruct (metadata !! "annotations") as [[| | | | |a]|]; simpl;
    by intros [[? ?]|[? ?]].
Qed.

(** X1. The edits of [pause] and [resume] return a manifest exactly when its
    [metadata.annotations] is a mapping; on any other manifest they raise. *)
Theorem edits_need_annotations key app :
  ((∃ app', pause_edit key app = Ok app') ↔ is_Some (annotations_of app)) ∧
  ((∃ app', resume_edit key app = Ok app') ↔ is_Some (annotations_of app)).
Proof.
  split; split.
  - intros H. apply (annotations_of_some_edit key). by left.
  - intros [a (m & metadata & -> & Hm & Ha)%annotations_of_inv].
    eexists. by apply pause_edit_ok.
  - intros H. apply (annotations_of_some_edit key). by right.
  - intros [a (m & metadata & -> & Hm & Ha)%annotations_of_inv].
    eexists. by apply resume_edit_ok.
Qed.

(** X2. On a manifest whose [metadata] has no [annotations] key both edits
    raise [KeyError('annotations')]; when the key is there with a null value,
    [pause] raises [TypeError] and [resume] raises [AttributeError]. *)
Theorem edits_without_annotations key app metadata :
  getitem app "metadata" = Ok (YMap metadata) →
  (metadata !! "annotations" = None →
   pause_edit key app = Raise (KeyError "annotations") ∧
   resume_edit key app = Raise (KeyError "annotations")) ∧
  (metadata !! "annotations" = Some YNull →
   pause_edit key app = Raise TypeError ∧
   resume_edit key app = Raise AttributeError).
Proof.
  intros Hm. unfold pause_edit, resume_edit. rewrite Hm. simpl.
  split; intros ->; by simpl.
Qed.

Lemma edits_without_annotations_witness :
  ((<["name" := YStr "svc"]> ∅ : gmap string yaml) !! "annotations" = None →
   pause_edit (ignore_tags_key "svc") Examples.bare_manifest
   = Raise (KeyError "annotations") ∧
   resume_edit (ignore_tags_key "svc") Examples.bare_manifest
   = Raise (KeyError "annotations")) ∧
  ((<["name" := YStr "svc"]> ∅ : gmap string yaml) !! "annotations" = Some YNull →
   pause_edit (ignore_tags_key "svc") Examples.bare_manifest = Raise TypeError ∧
   resume_edit (ignore_tags_key "svc") Examples.bare_manifest = Raise AttributeError).
Proof.
  apply (edits_without_annotations (ignore_tags_key "svc") Examples.bare_manifest).
  reflexivity.
Defined.

(** X3. The edit of [resume] is idempotent: applied to a manifest it
    returned, it returns that manifest again. *)
Theorem resume_edit_idempotent key app app' :
  resume_edit key app = Ok app' → resume_edit key app' = Ok app'.
Proof.
  intros Hr.
  destruct (annotations_of_some_edit key app) as [a Ha]; [right; by eexists|].
  apply annotations_of_inv in Ha as (m & metadata & -> & Hm & Ha).
  rewrite (resume_edit_ok _ _ _ _ Hm Ha) in Hr. injection Hr as <-.
  erewrite resume_edit_ok by apply lookup_insert_eq.
  by rewrite delete_delete_eq, !insert_insert_eq.
Qed.

Lemma resume_edit_idempotent_witness :
  ∃ app',
    resume_edit (ignore_tags_key "svc") Mock.paused_manifest = Ok app' ∧
    resume_edit (ignore_tags_key "svc") app' = Ok app'.
Proof.
  eexists. split; [reflexivity|].
  apply (resume_edit_idempotent (ignore_tags_key "svc") Mock.paused_manifest).
  reflexivity.
Defined.

(** X4. The later edit wins: [pause] then [resume] is [resume], and [resume]
    then [pause] is [pause], on every manifest with an annotations mapping. *)
Theorem annotation_edits_compose key app annotations :
  annotations_of app = Some annotations →
  (app1 ← pause_edit key app; resume_edit key app1) = resume_edit key app ∧
  (app1 ← resume_edit key app; pause_edit key app1) = pause_edit key app.
Proof.
  intros (m & metadata & -> & Hm & Ha)%annotations_of_inv.
  rewrite (pause_edit_ok _ _ _ _ Hm Ha), (resume_edit_ok _ _ _ _ Hm Ha). simpl.
  split.
  - erewrite resume_edit_ok by apply lookup_insert_eq.
    by rewrite delete_insert_eq, !insert_insert_eq.
  - erewrite pause_edit_ok by apply lookup_insert_eq.
    by rewrite insert_delete_eq, !insert_insert_eq.
Qed.

Lemma annotation_edits_compose_witness :
  (app1 ← pause_edit (ignore_tags_key "svc") Mock.paused_manifest;
   resume_edit (ignore_tags_key "svc") app1)
  = resume_edit (ignore_tags_key "svc") Mock.paused_manifest ∧
  (app1 ← resume_edit (ignore_tags_key "svc") Mock.paused_manifest;
   pause_edit (ignore_tags_key "svc") app1)
  = pause_edit (ignore_tags_key "svc") Mock.paused_manifest.
Proof.
  apply (annotation_edits_compose (ignore_tags_key "svc") Mock.paused_manifest
           (<[ignore_tags_key "svc" := YStr "*"]> ∅)).
  reflexivity.
Defined.

(** ** Further properties of the parameter rewrite *)

Lemma keep_parameters_named params new_params result :
  keep_parameters params new_params = Ok result → Forall named params.
Proof.
  revert new_params. induction params as [|p params IH]; intros new_params; simpl;
    [by constructor|].
  destruct (getitem p "name") as [n|] eqn:Hn; simpl; [|done].
  intros Hk. constructor; [by exists n|].
  destruct (negb (eq_str n "image.tag")); by eapply IH.
Qed.

Lemma update_edit_ok versions service m spec source helm parameters params v :
  m !! "spec" = Some (YMap spec) →
  spec !! "source" = Some (YMap source) →
  source !! "helm" = Some (YMap helm) →
  helm !! "parameters" = Some parameters →
  iter parameters = Ok params →
  Forall named params →
  versions !! service = Some v →
  update_edit versions service (YMap m)
  = Ok (YMap (<["spec" := YMap (<["source" := YMap (<["helm" :=
          YMap (<["parameters" :=
            YSeq (filter (λ p, ¬ is_image_tag p) params ++ [image_tag v])]> helm)]>
          source)]> spec)]> m)).
Proof.
  intros H1 H2 H3 H4 Hi Hn Hv. unfold update_edit. simpl.
  rewrite H1. simpl. rewrite H2. simpl. rewrite H3. simpl. rewrite H4. simpl.
  rewrite Hi. simpl. rewrite (keep_parameters_filter _ _ Hn). simpl.
  by rewrite Hv.
Qed.

Lemma update_edit_inv versions service app app' :
  update_edit versions service app = Ok app' →
  ∃ m spec source helm parameters params v,
    app = YMap m ∧ m !! "spec" = Some (YMap spec) ∧
    spec !! "source" = Some (YMap source) ∧ source !! "helm" = Some (YMap helm) ∧
    helm !! "parameters" = Some parameters ∧ iter parameters = Ok params ∧
    Forall named params ∧ versions !! service = Some v.
Proof.
  unfold update_edit.
  destruct app as [| | | | |m]; simpl; try done.
  destruct (m !! "spec") as [[| | | | |spec]|] eqn:H1; simpl; try done.
  destruct (spec !! "source") as [[| | | | |source]|] eqn:H2; simpl; try done.
  destruct (source !! "helm") as [[| | | | |helm]|] eqn:H3; simpl; try done.
  destruct (helm !! "parameters") as [parameters|] eqn:H4; simpl; try done.
  destruct (iter parameters) as [params|] eqn:Hi; simpl; try done.
  destruct (keep_parameters params []) as [new|] eqn:Hk; simpl; try done.
  destruct (versions !! service) as [v|] eqn:Hv; simpl; try done.
  intros _. apply keep_parameters_named in Hk. eauto 15.
Qed.

Lemma parameters_of_iter app params :
  parameters_of app = Some params →
  ∃ m spec source helm,
    app = YMap m ∧ m !! "spec" = Some (YMap spec) ∧
    spec !! "source" = Some (YMap source) ∧ source !! "helm" = Some (YMap helm) ∧
    helm !! "parameters" = Some (YSeq params) ∧ iter (YSeq params) = Ok params.
Proof.
  intros (m & spec & source & helm & -> & H1 & H2 & H3 & H4)%parameters_of_inv.
  eauto 10.
Qed.

(** X6. On a manifest with a parameter list, the rewrite of
    [update_versions] returns exactly when every entry of the list has a
    [name] and the versions mapping has the service. *)
Theorem update_edit_returns_iff versions service app params :
  parameters_of app = Some params →
  (∃ app', update_edit versions service app = Ok app') ↔
  Forall named params ∧ is_Some (versions !! service).
Proof.
  intros (m & spec & source & helm & -> & H1 & H2 & H3 & H4 & Hi)%parameters_of_iter.
  split.
  - intros [app' Hu].
    apply update_edit_inv in Hu
      as (m' & spec' & source' & helm' & parameters & params' & v
          & [= <-] & H1' & H2' & H3' & H4' & Hi' & Hn & Hv).
    rewrite H1 in H1'. injection H1' as <-. rewrite H2 in H2'. injection H2' as <-.
    rewrite H3 in H3'. injection H3' as <-. rewrite H4 in H4'. injection H4' as <-.
    simpl in Hi'. injection Hi' as <-. split; [done|]. by exists v.
  - intros [Hn [v Hv]]. eexists. by eapply update_edit_ok.
Qed.

Lemma update_edit_returns_iff_witness :
  (∃ app', update_edit (<["svc" := YStr "v1.2.3"]> ∅) "svc"
                       Examples.nameless_manifest = Ok app') ↔
  Forall named [YMap (<["value" := YStr "3"]> ∅)] ∧
  is_Some ((<["svc" := YStr "v1.2.3"]> ∅ : gmap string yaml) !! "svc").
Proof.
  apply (update_edit_returns_iff (<["svc" := YStr "v1.2.3"]> ∅) "svc"
           Examples.nameless_manifest).
  reflexivity.
Defined.

(** X7. When the versions mapping has no entry for the service,
    [update_versions] raises [KeyError] with the name of the service, after
    it went through the parameters. *)
Theorem update_edit_unknown_service versions service app params :
  parameters_of app = Some params →
  Forall named params →
  versions !! service = None →
  update_edit versions service app = Raise (KeyError service).
Proof.
  intros (m & spec & source & helm & -> & H1 & H2 & H3 & H4 & Hi)%parameters_of_iter
    Hn Hv.
  unfold update_edit. simpl. rewrite H1. simpl. rewrite H2. simpl. rewrite H3. simpl.
  rewrite H4. simpl. rewrite (keep_parameters_filter _ _ Hn). simpl. by rewrite Hv.
Qed.

Lemma update_edit_unknown_service_witness :
  update_edit ∅ "svc" Mock.svc_manifest = Raise (KeyError "svc").
Proof.
  apply (update_edit_unknown_service ∅ "svc" Mock.svc_manifest
           [Mock.parameter "replicas" "3"; Mock.parameter "image.tag" "v1.0.0"]).
  - reflexivity.
  - repeat constructor; by eexists.
  - reflexivity.
Defined.

Lemma named_filter params :
  Forall named params → Forall named (filter (λ p, ¬ is_image_tag p) params).
Proof.
  induction 1 as [|p params Hp _ IH]; [constructor|].
  rewrite filter_cons. destruct (decide _); [by constructor|done].
Qed.

Lemma filter_kept_again (params : list yaml) :
  filter (λ p, ¬ is_image_tag p) (filter (λ p, ¬ is_image_tag p) params)
  = filter (λ p, ¬ is_image_tag p) params.
Proof.
  induction params as [|p params IH]; [done|].
  rewrite filter_cons. destruct (decide (¬ is_image_tag p)) as [Hp|Hp]; [|done].
  rewrite filter_cons, decide_True by done. by rewrite IH.
Qed.

Lemma filter_drops_image_tag (params : list yaml) v :
  filter (λ p, ¬ is_image_tag p)
         (filter (λ p, ¬ is_image_tag p) params ++ [image_tag v])
  = filter (λ p, ¬ is_image_tag p) params.
Proof.
  rewrite filter_app, filter_kept_again, filter_cons.
  rewrite decide_False; [by rewrite app_nil_r|].
  intros Hn. apply Hn. by rewrite is_image_tag_image_tag.
Qed.

(** X8. A second rewrite replaces the first: rewriting the manifest that
    [update_versions] wrote gives what rewriting the original gives, so
    running it again with the same versions changes nothing. *)
Theorem update_edit_overwrites versions1 versions2 service app app1 :
  update_edit versions1 service app = Ok app1 →
  is_Some (versions2 !! service) →
  update_edit versions2 service app1 = update_edit versions2 service app ∧
  (versions2 !! service = versions1 !! service →
   update_edit versions2 service app1 = Ok app1).
Proof.
  intros Hu [v2 Hv2].
  pose proof Hu as Hshape.
  apply update_edit_inv in Hshape
    as (m & spec & source & helm & parameters & params & v1
        & -> & H1 & H2 & H3 & H4 & Hi & Hn & Hv1).
  rewrite (update_edit_ok _ _ _ _ _ _ _ _ _ H1 H2 H3 H4 Hi Hn Hv1) in Hu.
  injection Hu as <-.
  assert (update_edit versions2 service
            (YMap (<["spec" := YMap (<["source" := YMap (<["helm" :=
               YMap (<["parameters" :=
                 YSeq (filter (λ p, ¬ is_image_tag p) params ++ [image_tag v1])]> helm)]>
               source)]> spec)]> m))
          = Ok (YMap (<["spec" := YMap (<["source" := YMap (<["helm" :=
               YMap (<["parameters" :=
                 YSeq (filter (λ p, ¬ is_image_tag p) params ++ [image_tag v2])]> helm)]>
               source)]> spec)]> m))) as Hagain.
  { erewrite update_edit_ok; try apply lookup_insert_eq; try exact Hv2.
    - by rewrite filter_drops_image_tag, !insert_insert_eq.
    - reflexivity.
    - apply Forall_app. split; [by apply named_filter|].
      repeat constructor. eexists. unfold image_tag. simpl.
      by rewrite lookup_insert_eq. }
  split.
  - rewrite Hagain. symmetry. by eapply update_edit_ok.
  - rewrite Hv2, Hv1. intros [= ->]. exact Hagain.
Qed.

Lemma update_edit_overwrites_witness :
  ∃ app1,
    update_edit (<["svc" := YStr "v1.2.3"]> ∅) "svc" Mock.svc_manifest = Ok app1 ∧
    update_edit (<["svc" := YStr "v2.0.0"]> ∅) "svc" app1
    = update_edit (<["svc" := YStr "v2.0.0"]> ∅) "svc" Mock.svc_manifest ∧
    ((<["svc" := YStr "v2.0.0"]> ∅ : gmap string yaml) !! "svc"
     = (<["svc" := YStr "v1.2.3"]> ∅ : gmap string yaml) !! "svc" →
     update_edit (<["svc" := YStr "v2.0.0"]> ∅) "svc" app1 = Ok app1).
Proof.
  eexists. split; [reflexivity|].
  apply (update_edit_overwrites (<["svc" := YStr "v1.2.3"]> ∅)
           (<["svc" := YStr "v2.0.0"]> ∅) "svc" Mock.svc_manifest).
  - reflexivity.
  - by eexists.
Defined.

Lemma scan_parameters_app n params1 params2 versions :
  scan_parameters n (params1 ++ params2) versions
  = versions' ← scan_parameters n params1 versions; scan_parameters n params2 versions'.
Proof.
  revert versions. induction params1 as [|p params1 IH]; intros versions; simpl; [done|].
  destruct (getitem p "name") as [n'|]; simpl; [|done].
  destruct (eq_str n' "image.tag"); [|apply IH].
  destruct (getitem p "value") as [v|]; simpl; [apply IH|done].
Qed.

Lemma scan_parameters_kept n params versions :
  Forall named params →
  scan_parameters n (filter (λ p, ¬ is_image_tag p) params) versions = Ok versions.
Proof.
  induction 1 as [|p params [n' Hn] _ IH]; [done|].
  rewrite filter_cons. destruct (decide (¬ is_image_tag p)) as [Hp|Hp]; [|done].
  simpl. rewrite Hn. simpl. rewrite (is_image_tag_name _ _ Hn) in Hp.
  by destruct (eq_str n' "image.tag"); [destruct Hp|].
Qed.

(** X10. What [update_versions] writes is what [get_versions] reads back:
    over the rewritten parameter list the loop of [get_versions] assigns the
    service the value that was written, whatever tags the list held
    before. *)
Theorem update_then_read versions service app params v :
  parameters_of app = Some params →
  Forall named params →
  versions !! service = Some v →
  ∃ app' params',
    update_edit versions service app = Ok app' ∧
    parameters_of app' = Some params' ∧
    last_image_tag params' = Some v ∧
    ∀ n read, scan_parameters n params' read = Ok (<[n := v]> read).
Proof.
  intros (m & spec & source & helm & -> & H1 & H2 & H3 & H4 & Hi)%parameters_of_iter
    Hn Hv.
  eexists _, _. split; [by eapply update_edit_ok|].
  split; [apply parameters_of_put|].
  assert (∀ n read,
            scan_parameters n (filter (λ p, ¬ is_image_tag p) params ++ [image_tag v]) read
            = Ok (<[n := v]> read)) as Hscan.
  { intros n read. rewrite scan_parameters_app, (scan_parameters_kept _ _ _ Hn).
    simpl. unfold image_tag. simpl. by rewrite lookup_insert_eq. }
  split; [|exact Hscan].
  pose proof (scan_parameters_ok "n" _ ∅ _ (Hscan "n" ∅)) as Hlast.
  destruct (last_image_tag _) as [v'|]; simpl in Hlast.
  - apply (f_equal (.!! "n")) in Hlast. rewrite !lookup_insert_eq in Hlast. congruence.
  - apply (f_equal (.!! "n")) in Hlast. by rewrite lookup_insert_eq in Hlast.
Qed.

Lemma update_then_read_witness :
  ∃ app' params',
    update_edit (<["svc" := YStr "v1.2.3"]> ∅) "svc" Mock.svc_manifest = Ok app' ∧
    parameters_of app' = Some params' ∧
    last_image_tag params' = Some (YStr "v1.2.3") ∧
    ∀ n read, scan_parameters n params' read = Ok (<[n := YStr "v1.2.3"]> read).
Proof.
  apply (update_then_read (<["svc" := YStr "v1.2.3"]> ∅) "svc" Mock.svc_manifest
           [Mock.parameter "replicas" "3"; Mock.parameter "image.tag" "v1.0.0"]
           (YStr "v1.2.3")).
  - reflexivity.
  - repeat constructor; by eexists.
  - reflexivity.
Defined.

(** ** Further properties of the version reader *)

Lemma scan_parameters_readable n params versions versions' :
  scan_parameters n params versions = Ok versions' → Forall readable params.
Proof.
  revert versions. induction params as [|p params IH]; intros versions; simpl;
    [by constructor|].
  destruct (getitem p "name") as [n'|] eqn:Hn; simpl; [|done].
  destruct (eq_str n' "image.tag") eqn:Htag.
  - destruct (getitem p "value") as [v|] eqn:Hv; simpl; [|done].
    intros Hs. constructor; [|by eapply IH].
    split; [by exists n'|]. intros _. by exists v.
  - intros Hs. constructor; [|by eapply IH].
    split; [by exists n'|]. rewrite (is_image_tag_name _ _ Hn), Htag. by intros [].
Qed.

Section MoreVersions.
Context {W : Type} `{!Github W} `{!Yaml}.
Implicit Types (st : state W) (services : list ContentFile).

Lemma fold_versions_readable repo env w services versions versions' :
  fold_versions repo env w services versions = Ok versions' →
  ∀ service, service ∈ services →
    ∃ params, tracked_parameters repo env w service = Ok params ∧
              Forall readable params.
Proof.
  revert versions. induction services as [|s services IH]; intros versions;
    cbn [fold_versions].
  - intros _ service Hin. by apply elem_of_nil in Hin.
  - destruct (tracked_parameters repo env w s) as [ps|e] eqn:Hps; simpl; [|done].
    destruct (scan_parameters (name s) ps versions) as [vs|e] eqn:Hscan; simpl; [|done].
    intros Hfold service [->|Hin]%elem_of_cons.
    + exists ps. split; [done|]. by eapply scan_parameters_readable.
    + by eapply IH.
Qed.

Lemma fold_versions_origin repo env w services versions versions' n v :
  fold_versions repo env w services versions = Ok versions' →
  versions' !! n = Some v →
  versions !! n = Some v ∨
  ∃ service params,
    service ∈ services ∧ name service = n ∧
    tracked_parameters repo env w service = Ok params ∧
    last_image_tag params = Some v.
Proof.
  revert versions. induction services as [|s services IH]; intros versions;
    cbn [fold_versions].
  - intros [= ->] Hv. by left.
  - destruct (tracked_parameters repo env w s) as [ps|e] eqn:Hps; simpl; [|done].
    destruct (scan_parameters (name s) ps versions) as [vs|e] eqn:Hscan; simpl; [|done].
    apply scan_parameters_ok in Hscan as ->.
    intros Hfold Hv.
    destruct (IH _ Hfold Hv) as [Hhere|(service & params & Hin & Hrest)].
    + destruct (decide (name s = n)) as [<-|Hne].
      * rewrite assign_lookup in Hhere.
        destruct (last_image_tag ps) as [v'|] eqn:Hlast; [|by left].
        right. exists s, ps. injection Hhere as ->. split; [by left|done].
      * left. by rewrite assign_lookup_ne in Hhere.
    + right. exists service, params. split; [by right|exact Hrest].
Qed.

Lemma for_fold_read_version_trace env repo services versions st :
  remote (for_fold services versions (read_version env repo) st).2 = remote st ∧
  ∃ l,
    trace (for_fold services versions (read_version env repo) st).2 = trace st ++ l ∧
    l `prefix_of`
      ((λ service, EvGetContents (tracking_file env service) (Some (default_branch repo)))
         <$> services) ∧
    ∀ result, (for_fold services versions (read_version env repo) st).1 = Ok result →
      l = (λ service, EvGetContents (tracking_file env service)
                                    (Some (default_branch repo))) <$> services.
Proof.
  revert versions st. induction services as [|s services IH]; intros versions st;
    cbn [for_fold].
  - split; [done|]. exists []. by rewrite app_nil_r.
  - rewrite bind_run, read_version_run.
    destruct (_ ≫= _) as [vs|e]; cbn [fst snd].
    + destruct (IH vs (record (EvGetContents (tracking_file env s)
                                 (Some (default_branch repo))) st))
        as (Hremote & l & Htrace & Hprefix & Hall).
      split; [done|]. eexists (_ :: l). split; [|split].
      * rewrite Htrace. simpl. by rewrite <- app_assoc.
      * csimpl. by apply prefix_cons.
      * intros result Hok. csimpl. f_equal. by eapply Hall.
    + split; [done|]. eexists [_]. split; [done|]. split; [|done].
      csimpl. apply prefix_cons, prefix_nil.
Qed.

Lemma get_versions_loop charts_dir env repo services st :
  gh_get_contents repo charts_dir None (remote st) = Ok (AListing services) →
  get_versions charts_dir env repo st
  = for_fold services ∅ (read_version env repo)
             (record (EvGetContents charts_dir None) st).
Proof.
  intros Hl. unfold get_versions, get_contents. by rewrite bind_run, read_run, Hl.
Qed.

(** X11. [get_versions] has entries for enumerated services only, and each
    value is the last [image.tag] value of the source-tracking file of a
    service with that name. *)
Theorem get_versions_entries charts_dir env repo st services versions n v :
  gh_get_contents repo charts_dir None (remote st) = Ok (AListing services) →
  (get_versions charts_dir env repo st).1 = Ok versions →
  versions !! n = Some v →
  ∃ service params,
    service ∈ services ∧ name service = n ∧
    tracked_parameters repo env (remote st) service = Ok params ∧
    last_image_tag params = Some v.
Proof.
  intros Hl. rewrite (get_versions_run _ _ _ _ _ Hl). intros Hfold Hv.
  destruct (fold_versions_origin _ _ _ _ _ _ _ _ Hfold Hv) as [Hempty|Hfrom]; [|done].
  by rewrite lookup_empty in Hempty.
Qed.

(** X12. Over a listing, [get_versions] returns exactly when the
    source-tracking file of every enumerated service can be read and each of
    its entries has a [name], and a [value] when the name is [image.tag]. *)
Theorem get_versions_returns_iff charts_dir env repo st services :
  gh_get_contents repo charts_dir None (remote st) = Ok (AListing services) →
  (∃ versions, (get_versions charts_dir env repo st).1 = Ok versions) ↔
  ∀ service, service ∈ services →
    ∃ params, tracked_parameters repo env (remote st) service = Ok params ∧
              Forall readable params.
Proof.
  intros Hl. rewrite (get_versions_run _ _ _ _ _ Hl). split.
  - intros [versions Hfold]. by eapply fold_versions_readable.
  - apply fold_versions_total.
Qed.

(** X13. [get_versions] only reads: the remote is as it was, and its calls
    are the listing of the charts directory followed by one read per
    service, in the order of the listing, of that service's source-tracking
    file on the default branch; all of them when it returns, the first few
    when it raises. *)
Theorem get_versions_reads charts_dir env repo st services :
  gh_get_contents repo charts_dir None (remote st) = Ok (AListing services) →
  remote (get_versions charts_dir env repo st).2 = remote st ∧
  ∃ l,
    trace (get_versions charts_dir env repo st).2 = trace st ++ l ∧
    l `prefix_of` version_reads repo charts_dir env services ∧
    ∀ versions, (get_versions charts_dir env repo st).1 = Ok versions →
      l = version_reads repo charts_dir env services.
Proof.
  intros Hl. rewrite (get_versions_loop _ _ _ _ _ Hl). unfold version_reads.
  destruct (for_fold_read_version_trace env repo services ∅
              (record (EvGetContents charts_dir None) st))
    as (Hremote & l & Htrace & Hprefix & Hall).
  split; [done|]. exists (EvGetContents charts_dir None :: l). split; [|split].
  - rewrite Htrace. simpl. by rewrite <- app_assoc.
  - by apply prefix_cons.
  - intros versions Hok. f_equal. by eapply Hall.
Qed.

End MoreVersions.

Lemma get_versions_entries_witness :
  ∃ service params,
    service ∈ [Mock.dir "helm-charts/svc" "svc"] ∧ name service = "svc" ∧
    @tracked_parameters _ Mock.github Mock.codec Mock.k8s (Some "dev")
                        (Mock.repository_with "two tags") service = Ok params ∧
    last_image_tag params = Some (YStr "v1.2.4").
Proof.
  apply (@get_versions_entries _ Mock.github Mock.codec "helm-charts" (Some "dev")
           Mock.k8s (init (Mock.repository_with "two tags"))
           [Mock.dir "helm-charts/svc" "svc"] (<["svc" := YStr "v1.2.4"]> ∅)
           "svc" (YStr "v1.2.4")); reflexivity.
Defined.

Lemma get_versions_returns_iff_witness :
  (∃ versions,
     (@get_versions _ Mock.github Mock.codec "helm-charts" (Some "dev") Mock.k8s
                    (init (Mock.repository_with "no tag"))).1 = Ok versions) ↔
  ∀ service, service ∈ [Mock.dir "helm-charts/svc" "svc"] →
    ∃ params,
      @tracked_parameters _ Mock.github Mock.codec Mock.k8s (Some "dev")
                          (Mock.repository_with "no tag") service = Ok params ∧
      Forall readable params.
Proof.
  apply (@get_versions_returns_iff _ Mock.github Mock.codec "helm-charts" (Some "dev")
           Mock.k8s (init (Mock.repository_with "no tag"))
           [Mock.dir "helm-charts/svc" "svc"]).
  reflexivity.
Defined.

Lemma get_versions_reads_witness :
  Mock.repository_with "one tag" = Mock.repository_with "one tag" ∧
  ∃ l,
    trace (@get_versions _ Mock.github Mock.codec "helm-charts" (Some "dev") Mock.k8s
                         (init (Mock.repository_with "one tag"))).2 = [] ++ l ∧
    l `prefix_of` version_reads Mock.k8s "helm-charts" (Some "dev")
                                [Mock.dir "helm-charts/svc" "svc"] ∧
    ∀ versions,
      (@get_versions _ Mock.github Mock.codec "helm-charts" (Some "dev") Mock.k8s
                     (init (Mock.repository_with "one tag"))).1 = Ok versions →
      l = version_reads Mock.k8s "helm-charts" (Some "dev")
                        [Mock.dir "helm-charts/svc" "svc"].
Proof.
  apply (@get_versions_reads _ Mock.github Mock.codec "helm-charts" (Some "dev")
           Mock.k8s (init (Mock.repository_with "one tag"))
           [Mock.dir "helm-charts/svc" "svc"]).
  reflexivity.
Defined.

Lemma pause_writes_edit_witness :
  EvUpdateFile "environments/staging/svc/application.yaml" "Pause svc in staging."
               "dumped" "svc manifest" "prod-push-2024-01-01"
    ∈ trace (@pause _ Mock.github Mock.codec (Some "staging") "svc" Mock.k8s
                    "prod-push-2024-01-01" (init Examples.taken)).2.
Proof.
  apply (@pause_writes_edit _ Mock.github Mock.codec (Some "staging") "svc" Mock.k8s
           "prod-push-2024-01-01" (init Examples.taken)
           (Mock.file "environments/staging/svc/application.yaml" "application.yaml"
                      "svc manifest")
           Mock.svc_manifest
           (Mock.manifest (<[ignore_tags_key "svc" := YStr "*"]> (<["a" := YStr "1"]> ∅))
              [Mock.parameter "replicas" "3"; Mock.parameter "image.tag" "v1.0.0"]));
    reflexivity.
Defined.

Lemma resume_writes_edit_witness :
  EvUpdateFile "environments/staging/svc/application.yaml" "Resume svc in staging."
               "dumped" "svc manifest" "prod-push-2024-01-01"
    ∈ trace (@resume _ Mock.github Mock.codec (Some "staging") "svc" Mock.k8s
                     "prod-push-2024-01-01" (init Examples.taken)).2.
Proof.
  apply (@resume_writes_edit _ Mock.github Mock.codec (Some "staging") "svc" Mock.k8s
           "prod-push-2024-01-01" (init Examples.taken)
           (Mock.file "environments/staging/svc/application.yaml" "application.yaml"
                      "svc manifest")
           Mock.svc_manifest Mock.svc_manifest);
    reflexivity.
Defined.

(** ** Rules for selected events *)

Section Records.
Context {W X : Type} (f : event → option X).
Implicit Types (st : state W) (xs : list X).

Lemma records_ret {A} (a : A) : records f [] (ret a : M W A).
Proof. intros st. exists []. by rewrite app_nil_r. Qed.

Lemma records_lift {A} (r : result A) : records f [] (lift r : M W A).
Proof. intros st. exists []. by rewrite app_nil_r. Qed.

Lemma records_read {A} ev (g : W → result A) : f ev = None → records f [] (read ev g).
Proof. intros Hev st. exists [ev]. csimpl. by rewrite Hev. Qed.

Lemma records_print line : f (EvPrint line) = None → records f [] (print line : M W unit).
Proof. intros Hev st. exists [EvPrint line]. csimpl. by rewrite Hev. Qed.

Lemma records_write_none ev (g : W → result W) : f ev = None → records f [] (write ev g).
Proof.
  intros Hev st. exists [ev]. unfold write. csimpl. rewrite Hev.
  by destruct (g (remote st)).
Qed.

Lemma records_write_some ev x (g : W → result W) :
  f ev = Some x → records f [x] (write ev g).
Proof.
  intros Hev st. exists [ev]. unfold write. csimpl. rewrite Hev.
  by destruct (g (remote st)).
Qed.

Lemma records_bind {A B} xs1 xs2 (m : M W A) (k : A → M W B) :
  records f xs1 m → (∀ a, records f xs2 (k a)) → records f (xs1 ++ xs2) (bind m k).
Proof.
  intros Hm Hk st. unfold bind.
  destruct (Hm st) as (l1 & E1 & P1 & O1).
  destruct (m st) as [[a|e] st1]; simpl in *.
  - destruct (Hk a st1) as (l2 & E2 & P2 & O2).
    exists (l1 ++ l2). rewrite E2, E1, app_assoc, omap_app, (O1 a eq_refl).
    split; [done|]. split; [by apply prefix_app|].
    intros b Hb. by rewrite (O2 b Hb).
  - exists l1. split; [done|]. split; [by apply prefix_app_r|done].
Qed.

Lemma records_for_each {A} (g : A → list X) (items : list A) (body : A → M W unit) :
  (∀ x, records f (g x) (body x)) →
  records f (concat (g <$> items)) (for_each items body).
Proof.
  intros Hb. induction items as [|x items IH]; csimpl.
  - apply records_ret.
  - apply records_bind; [apply Hb | intros _; apply IH].
Qed.

Lemma records_for_fold {A S} (items : list A) (s : S) (body : A → S → M W S) :
  (∀ x s, records f [] (body x s)) → records f [] (for_fold items s body).
Proof.
  intros Hb. revert s. induction items as [|x items IH]; intros s; simpl.
  - apply records_ret.
  - apply (records_bind [] []); [apply Hb | intros s'; apply IH].
Qed.

End Records.

Lemma concat_nothing {A X} (items : list A) :
  concat ((λ _, [] : list X) <$> items) = [].
Proof. induction items as [|x items IH]; [done|]. csimpl. exact IH. Qed.

Lemma concat_one {A X} (items : list A) (y : X) :
  concat ((λ _, [y]) <$> items) = replicate (length items) y.
Proof. induction items as [|x items IH]; [done|]. csimpl. by rewrite IH. Qed.

Ltac records_quiet :=
  repeat first
    [ apply records_ret
    | apply records_lift
    | apply records_read; reflexivity
    | apply records_print; reflexivity
    | apply records_write_none; reflexivity
    | apply (records_bind _ [] []); [|intros] ].

Section OneUpdatePerService.
Context {W : Type} `{!Github W} `{!Yaml}.

Lemma update_versions_loop env versions repo branch (st : state W) services :
  gh_get_contents repo ("environments/" +:+ fmt env) None (remote st)
  = Ok (AListing services) →
  update_versions env versions repo branch st
  = for_each services (λ service,
      contents ←' get_contents repo (path service +:+ "/application.yaml")
                               (Some (default_branch repo));
      contents ←' lift (the_file contents);
      app ←' lift (safe_load (decoded_content contents));
      app ←' lift (update_edit versions (name service) app);
      update_file repo (path contents)
        ("Updated " +:+ name service +:+ " in " +:+ fmt env +:+ ".")
        (yaml_dump app) (sha contents) branch ;;'
      print (updated_line (path service +:+ "/application.yaml") branch repo))
      (record (EvGetContents ("environments/" +:+ fmt env) None) st).
Proof.
  intros Hl. unfold update_versions. cbv zeta. unfold get_contents at 1.
  by rewrite bind_run, read_run, Hl.
Qed.

(** X16. [update_versions] makes one [update_file] call per entry of the
    environment directory, each on the branch it was given: as many as
    there are entries when it returns, fewer or as many when it raises. *)
Theorem update_versions_one_update_per_service env versions repo branch
    (st : state W) services :
  gh_get_contents repo ("environments/" +:+ fmt env) None (remote st)
  = Ok (AListing services) →
  ∃ l,
    trace (update_versions env versions repo branch st).2 = trace st ++ l ∧
    omap updated_branch l `prefix_of` replicate (length services) branch ∧
    ((update_versions env versions repo branch st).1 = Ok () →
     omap updated_branch l = replicate (length services) branch).
Proof.
  intros Hl. rewrite (update_versions_loop _ _ _ _ _ _ Hl).
  match goal with |- context [for_each services ?body ?s] =>
    assert (∀ service, records updated_branch [branch] (body service)) as Hbody;
    [|destruct (records_for_each updated_branch (λ _, [branch]) services body Hbody s)
        as (l & Htrace & Hprefix & Hall)]
  end.
  { intros service. unfold get_contents, update_file.
    apply (records_bind _ [] [branch]); [by apply records_read|]. intros c.
    apply (records_bind _ [] [branch]); [apply records_lift|]. intros file.
    apply (records_bind _ [] [branch]); [apply records_lift|]. intros app.
    apply (records_bind _ [] [branch]); [apply records_lift|]. intros app'.
    apply (records_bind _ [branch] []); [by apply records_write_some|]. intros _.
    by apply records_print. }
  rewrite concat_one in Hprefix, Hall.
  exists (EvGetContents ("environments/" +:+ fmt env) None :: l).
  split; [|split].
  - rewrite Htrace. simpl. by rewrite <- app_assoc.
  - done.
  - intros Hok. by apply (Hall ()).
Qed.

End OneUpdatePerService.

Lemma update_versions_one_update_per_service_witness :
  ∃ l,
    trace (@update_versions _ Mock.github Mock.codec (Some "staging")
             (<["svc" := YStr "v1.2.3"]> ∅) Mock.k8s "prod-push-2024-01-01"
             (init Examples.taken)).2 = [] ++ l ∧
    omap updated_branch l `prefix_of` replicate 1 "prod-push-2024-01-01" ∧
    ((@update_versions _ Mock.github Mock.codec (Some "staging")
        (<["svc" := YStr "v1.2.3"]> ∅) Mock.k8s "prod-push-2024-01-01"
        (init Examples.taken)).1 = Ok () →
     omap updated_branch l = replicate 1 "prod-push-2024-01-01").
Proof.
  apply (@update_versions_one_update_per_service _ Mock.github Mock.codec
           (Some "staging") (<["svc" := YStr "v1.2.3"]> ∅) Mock.k8s
           "prod-push-2024-01-01" (init Examples.taken)
           [Mock.dir "environments/staging/svc" "svc"]).
  reflexivity.
Defined.

(** ** Further properties of the entry point *)

Lemma records_for_each_quiet {W X A} (f : event → option X) (items : list A)
    (body : A → M W unit) :
  (∀ x, records f [] (body x)) → records f [] (for_each items body).
Proof.
  intros Hb. pose proof (records_for_each f (λ _, []) items body Hb) as Hr.
  by rewrite concat_nothing in Hr.
Qed.

Ltac records_none :=
  repeat first
    [ apply records_for_each_quiet; intros
    | apply records_for_fold; intros
    | records_quiet ].

Section PullRequest.
Context {W : Type} `{!Github W} `{!Yaml}.
Implicit Types (st : state W) (w : W).

Lemma bind_raise {A B} (m : M W A) (k : A → M W B) st :
  is_raise (m st).1 →
  is_raise (bind m k st).1 ∧ (bind m k st).2 = (m st).2.
Proof.
  intros [e He]. unfold bind. destruct (m st) as [[a|e'] st']; simplify_eq/=.
  split; [by eexists|done].
Qed.

Lemma bind_ret_r (m : M W unit) st : bind m (λ _, ret ()) st = m st.
Proof. unfold bind, ret. by destruct (m st) as [[[]|e] st']. Qed.

Lemma emits_when P c (body : M W unit) : emits P body → emits P (when c body).
Proof. intros Hb. destruct c; [done|apply emits_ret]. Qed.

Lemma create_branch_no_pull repo branch :
  records created_pull [] (create_branch repo branch : M W unit).
Proof. unfold create_branch. records_none. Qed.

Lemma pause_no_pull env service repo branch :
  records created_pull [] (pause env service repo branch : M W unit).
Proof. unfold pause, get_contents, update_file. cbv zeta. records_none. Qed.

Lemma resume_no_pull env service repo branch :
  records created_pull [] (resume env service repo branch : M W unit).
Proof. unfold resume, get_contents, update_file. cbv zeta. records_none. Qed.

Lemma get_versions_no_pull charts_dir env repo :
  records created_pull [] (get_versions charts_dir env repo : M W _).
Proof. unfold get_versions, read_version, get_contents. cbv zeta. records_none. Qed.

Lemma update_versions_no_pull env versions repo branch :
  records created_pull [] (update_versions env versions repo branch : M W unit).
Proof. unfold update_versions, get_contents, update_file. cbv zeta. records_none. Qed.

Lemma create_pr_pull repo branch title :
  records created_pull [(default_branch repo, branch, title)]
          (create_pr repo branch title : M W unit).
Proof.
  unfold create_pr. cbv zeta.
  apply (records_bind _ [_] []); [by apply records_write_some|].
  intros _. by apply records_print.
Qed.

(** [create_branch] raises, and leaves the remote as it is, when the head of
    the default branch cannot be read or the ref cannot be created. *)
Lemma create_branch_raises {B} repo branch (k : unit → M W B) st :
  is_raise (gh_get_branch repo (default_branch repo) (remote st)) ∨
  (∃ head, gh_get_branch repo (default_branch repo) (remote st) = Ok head ∧
           is_raise (gh_create_git_ref repo ("refs/heads/" +:+ branch) head (remote st))) →
  is_raise (bind (create_branch repo branch) k st).1 ∧
  remote (bind (create_branch repo branch) k st).2 = remote st.
Proof.
  unfold create_branch, bind, read, write.
  intros [[e He]|(head & Hh & e & He)]; simpl.
  - rewrite He. simpl. split; [by eexists|done].
  - rewrite Hh. simpl. rewrite He. simpl. split; [by eexists|done].
Qed.

(** X17. Without [GITHUB_TOKEN] in the environment [main] raises
    [KeyError('GITHUB_TOKEN')] before any call: nothing is recorded and the
    remote is as it was, whatever the action. *)
Theorem main_without_token environ args now st :
  environ !! "GITHUB_TOKEN" = None →
  main environ args now st = (Raise (KeyError "GITHUB_TOKEN"), st).
Proof. intros Ht. unfold main, get_repo, bind, lift. by rewrite Ht. Qed.

(** X18. For each of the three actions [main] asks for at most one pull
    request, and for exactly one when it returns: into the default branch,
    from the branch of the action, titled [Freeze the {target_env}
    environment.], [Unfreeze the {target_env} environment.] or
    [Production Push.]. *)
Theorem one_pull_request environ args now w token repo a branch :
  environ !! "GITHUB_TOKEN" = Some token →
  gh_get_repo token "antonputra/k8s" w = Ok repo →
  action args = Some a →
  branch_name a (target_env args) (strftime now) = Some branch →
  omap created_pull (trace (main environ args now (init w)).2)
    `prefix_of` [(default_branch repo, branch, pr_title a (target_env args))] ∧
  ((main environ args now (init w)).1 = Ok () →
   omap created_pull (trace (main environ args now (init w)).2)
   = [(default_branch repo, branch, pr_title a (target_env args))]).
Proof.
  intros Ht Hrepo Ha Hb. unfold main.
  rewrite bind_run, (get_repo_run _ _ _ _ Ht). simpl remote. rewrite Hrepo.
  cbv zeta iota beta. rewrite Ha.
  assert (∀ (m : M W unit),
            records created_pull
              [(default_branch repo, branch, pr_title a (target_env args))] m →
            omap created_pull
              (trace (m (record (EvGetRepo "antonputra/k8s") (init w))).2)
              `prefix_of` [(default_branch repo, branch, pr_title a (target_env args))] ∧
            ((m (record (EvGetRepo "antonputra/k8s") (init w))).1 = Ok () →
             omap created_pull
               (trace (m (record (EvGetRepo "antonputra/k8s") (init w))).2)
             = [(default_branch repo, branch, pr_title a (target_env args))]))
    as Hfrom.
  { intros m Hm.
    destruct (Hm (record (EvGetRepo "antonputra/k8s") (init w)))
      as (l & -> & Hprefix & Hall).
    split; [done|]. intros Hok. by apply (Hall ()). }
  apply Hfrom. clear Hfrom. unfold branch_name in Hb. unfold pr_title.
  destruct (decide (a = "pause")) as [->|Hpause].
  { injection Hb as <-.
    rewrite (bool_decide_true (Some "pause" = Some "pause")) by done.
    rewrite !bool_decide_false by done. unfold when.
    apply (records_bind _ [_] []); [|intros; records_none].
    apply (records_bind _ [] [_]); [apply create_branch_no_pull|intros _].
    unfold get_contents.
    apply (records_bind _ [] [_]); [by apply records_read|intros c].
    apply (records_bind _ [] [_]); [apply records_lift|intros services].
    apply (records_bind _ [] [_]); [|intros _; apply create_pr_pull].
    apply records_for_each_quiet. intros svc. apply pause_no_pull. }
  destruct (decide (a = "resume")) as [->|Hresume].
  { injection Hb as <-.
    rewrite (bool_decide_true (Some "resume" = Some "resume")) by done.
    rewrite !bool_decide_false by done. unfold when.
    apply (records_bind _ [] [_]); [apply records_ret|intros _].
    apply (records_bind _ [_] []); [|intros; records_none].
    apply (records_bind _ [] [_]); [apply create_branch_no_pull|intros _].
    unfold get_contents.
    apply (records_bind _ [] [_]); [by apply records_read|intros c].
    apply (records_bind _ [] [_]); [apply records_lift|intros services].
    apply (records_bind _ [] [_]); [|intros _; apply create_pr_pull].
    apply records_for_each_quiet. intros svc. apply resume_no_pull. }
  destruct (decide (a = "push")) as [->|Hpush]; [|done].
  injection Hb as <-.
  rewrite (bool_decide_true (Some "push" = Some "push")) by done.
  rewrite !bool_decide_false by done. unfold when.
  apply (records_bind _ [] [_]); [apply records_ret|intros _].
  apply (records_bind _ [] [_]); [apply records_ret|intros _].
  apply (records_bind _ [] [_]); [apply create_branch_no_pull|intros _].
  apply (records_bind _ [] [_]); [apply get_versions_no_pull|intros versions].
  apply (records_bind _ [] [_]); [apply update_versions_no_pull|intros _].
  apply create_pr_pull.
Qed.

End PullRequest.

Ltac emits_reads :=
  cbv zeta;
  repeat first
    [ apply emits_ret
    | apply emits_lift
    | apply emits_when
    | apply emits_read; first [exact I | reflexivity]
    | apply emits_write; exact I
    | apply emits_print; exact I
    | apply emits_for_each; intros
    | apply emits_for_fold; intros
    | apply emits_bind; [|intros] ].

Section Failures.
Context {W : Type} `{!Github W} `{!Yaml}.
Implicit Types (st : state W) (w : W).

(** X19. When the branch of the action cannot be created, because the head
    of the default branch cannot be read or because the client refuses the
    ref, [main] raises and stops there: the remote is as it was, no file is
    updated and no pull request is asked for. *)
Theorem failed_branch_stops_main environ args now w token repo a branch :
  environ !! "GITHUB_TOKEN" = Some token →
  gh_get_repo token "antonputra/k8s" w = Ok repo →
  action args = Some a →
  branch_name a (target_env args) (strftime now) = Some branch →
  is_raise (gh_get_branch repo (default_branch repo) w) ∨
  (∃ head, gh_get_branch repo (default_branch repo) w = Ok head ∧
           is_raise (gh_create_git_ref repo ("refs/heads/" +:+ branch) head w)) →
  is_raise (main environ args now (init w)).1 ∧
  remote (main environ args now (init w)).2 = w ∧
  Forall (λ ev, updated_branch ev = None ∧ created_pull ev = None)
         (trace (main environ args now (init w)).2).
Proof.
  intros Ht Hrepo Ha Hb Hfail. split; [|split].
  - unfold main. rewrite bind_run, (get_repo_run _ _ _ _ Ht). simpl remote.
    rewrite Hrepo. cbv zeta iota beta. rewrite Ha. unfold branch_name in Hb.
    destruct (decide (a = "pause")) as [->|Hpause].
    { injection Hb as <-.
      rewrite (bool_decide_true (Some "pause" = Some "pause")) by done.
      unfold when at 1. apply bind_raise. by apply create_branch_raises. }
    destruct (decide (a = "resume")) as [->|Hresume].
    { injection Hb as <-.
      rewrite (bool_decide_true (Some "resume" = Some "resume")) by done.
      rewrite (bool_decide_false (Some "resume" = Some "pause")) by done.
      unfold when at 1 2. rewrite bind_ret_l.
      apply bind_raise. by apply create_branch_raises. }
    destruct (decide (a = "push")) as [->|Hpush]; [|done].
    injection Hb as <-.
    rewrite (bool_decide_true (Some "push" = Some "push")) by done.
    rewrite !bool_decide_false by done.
    unfold when. rewrite !bind_ret_l. by apply create_branch_raises.
  - unfold main. rewrite bind_run, (get_repo_run _ _ _ _ Ht). simpl remote.
    rewrite Hrepo. cbv zeta iota beta. rewrite Ha. unfold branch_name in Hb.
    destruct (decide (a = "pause")) as [->|Hpause].
    { injection Hb as <-.
      rewrite (bool_decide_true (Some "pause" = Some "pause")) by done.
      unfold when at 1.
      match goal with |- remote (bind ?m ?k ?s).2 = _ =>
        destruct (bind_raise m k s) as [_ ->]
      end; by apply create_branch_raises. }
    destruct (decide (a = "resume")) as [->|Hresume].
    { injection Hb as <-.
      rewrite (bool_decide_true (Some "resume" = Some "resume")) by done.
      rewrite (bool_decide_false (Some "resume" = Some "pause")) by done.
      unfold when at 1 2. rewrite bind_ret_l.
      match goal with |- remote (bind ?m ?k ?s).2 = _ =>
        destruct (bind_raise m k s) as [_ ->]
      end; by apply create_branch_raises. }
    destruct (decide (a = "push")) as [->|Hpush]; [|done].
    injection Hb as <-.
    rewrite (bool_decide_true (Some "push" = Some "push")) by done.
    rewrite !bool_decide_false by done.
    unfold when. rewrite !bind_ret_l. by apply create_branch_raises.
  - pose proof (main_trace environ args now w token repo Ht Hrepo) as Hm.
    rewrite Ha in Hm. simpl in Hm. rewrite Hb in Hm.
    destruct Hfail as [[e He]|(head & Hh & e & He)].
    + rewrite He in Hm. rewrite Hm. by repeat constructor.
    + rewrite Hh in Hm. destruct Hm as (l & -> & Hl). rewrite He in Hl. subst l.
      by repeat constructor.
Qed.

(** X20. Whatever the action, every read [main] makes is of the default
    branch: [get_branch] names it, and [get_contents] names it or no ref. *)
Theorem main_reads_default_branch environ args now w token repo :
  environ !! "GITHUB_TOKEN" = Some token →
  gh_get_repo token "antonputra/k8s" w = Ok repo →
  Forall (reads_default repo) (trace (main environ args now (init w)).2).
Proof.
  intros Ht Hrepo. unfold main.
  rewrite bind_run, (get_repo_run _ _ _ _ Ht). simpl remote. rewrite Hrepo.
  cbv zeta iota beta.
  match goal with |- Forall _ (trace (?m ?s).2) =>
    assert (emits (reads_default repo) m) as Hm
  end.
  { unfold pause, resume, get_versions, read_version, update_versions,
      create_branch, create_pr, get_contents, update_file.
    emits_reads. }
  destruct (Hm (record (EvGetRepo "antonputra/k8s") (init w))) as (l & -> & Hl).
  simpl. by constructor.
Qed.

End Failures.

Lemma main_without_token_witness :
  @main _ Mock.github Mock.codec ∅ (Mock.args_for "pause") Mock.new_year
        (init (Mock.repository_with "one tag"))
  = (Raise (KeyError "GITHUB_TOKEN"), init (Mock.repository_with "one tag")).
Proof.
  apply (@main_without_token _ Mock.github Mock.codec ∅ (Mock.args_for "pause")
           Mock.new_year (init (Mock.repository_with "one tag"))).
  reflexivity.
Defined.

Lemma one_pull_request_witness :
  omap created_pull
       (trace (@main _ Mock.github Mock.codec Mock.environ (Mock.args_for "pause")
                     Mock.new_year (init (Mock.repository_with "one tag"))).2)
    `prefix_of` [("main", "pause-staging-2024-01-01", "Freeze the staging environment.")] ∧
  ((@main _ Mock.github Mock.codec Mock.environ (Mock.args_for "pause")
          Mock.new_year (init (Mock.repository_with "one tag"))).1 = Ok () →
   omap created_pull
        (trace (@main _ Mock.github Mock.codec Mock.environ (Mock.args_for "pause")
                      Mock.new_year (init (Mock.repository_with "one tag"))).2)
   = [("main", "pause-staging-2024-01-01", "Freeze the staging environment.")]).
Proof.
  apply (@one_pull_request _ Mock.github Mock.codec Mock.environ (Mock.args_for "pause")
           Mock.new_year (Mock.repository_with "one tag") "token" Mock.k8s "pause"
           "pause-staging-2024-01-01"); reflexivity.
Defined.

Lemma failed_branch_stops_main_witness :
  is_raise (@main _ Mock.github Mock.codec Mock.environ (Mock.args_for "push")
                  Mock.new_year (init Examples.taken)).1 ∧
  remote (@main _ Mock.github Mock.codec Mock.environ (Mock.args_for "push")
                Mock.new_year (init Examples.taken)).2 = Examples.taken ∧
  Forall (λ ev, updated_branch ev = None ∧ created_pull ev = None)
         (trace (@main _ Mock.github Mock.codec Mock.environ (Mock.args_for "push")
                       Mock.new_year (init Examples.taken)).2).
Proof.
  apply (@failed_branch_stops_main _ Mock.github Mock.codec Mock.environ
           (Mock.args_for "push") Mock.new_year Examples.taken "token" Mock.k8s
           "push" "prod-push-2024-01-01"); try reflexivity.
  right. exists "c0". split; [reflexivity|]. by eexists.
Defined.

Lemma main_reads_default_branch_witness :
  Forall (reads_default Mock.k8s)
         (trace (@main _ Mock.github Mock.codec Mock.environ (Mock.args_for "push")
                       Mock.new_year (init (Mock.repository_with "one tag"))).2).
Proof.
  apply (@main_reads_default_branch _ Mock.github Mock.codec Mock.environ
           (Mock.args_for "push") Mock.new_year (Mock.repository_with "one tag")
           "token" Mock.k8s); reflexivity.
Defined.

(** ** What [pause], [resume] and [update_versions] write, by service *)


Section ByService.
Context {W : Type} `{!Github W} `{!Yaml}.
Implicit Types (st : state W) (w : W).



(** C5. [pause] sets the annotation
    [argocd-image-updater.argoproj.io/{service}.ignore-tags] of the manifest
    of the service to the string [*] and leaves every other annotation as it
    was: that manifest is what it hands to [update_file]. *)
Theorem pause_sets_ignore_tags env service repo branch st f app annotations :
  gh_get_contents repo
    ("environments/" +:+ fmt env +:+ "/" +:+ service +:+ "/application.yaml")
    (Some (default_branch repo)) (remote st) = Ok (AFile f) →
  safe_load (decoded_content f) = Ok app →
  annotations_of app = Some annotations →
  ∃ app' annotations',
    pause_edit ("argocd-image-updater.argoproj.io/" +:+ service +:+ ".ignore-tags") app
    = Ok app' ∧
    EvUpdateFile (path f) ("Pause " +:+ service +:+ " in " +:+ fmt env +:+ ".")
                 (yaml_dump app') (sha f) branch
      ∈ trace (pause env service repo branch st).2 ∧
    annotations_of app' = Some annotations' ∧
    annotations'
    = <["argocd-image-updater.argoproj.io/" +:+ service +:+ ".ignore-tags" := YStr "*"]>
        annotations ∧
    annotations' !! ("argocd-image-updater.argoproj.io/" +:+ service +:+ ".ignore-tags")
    = Some (YStr "*") ∧
    ∀ k, k ≠ "argocd-image-updater.argoproj.io/" +:+ service +:+ ".ignore-tags" →
         annotations' !! k = annotations !! k.
Proof.
  intros Hc Hl (m & metadata & -> & Hm & Ha)%annotations_of_inv.
  eexists _, _. split; [by apply pause_edit_ok|]. split.
  { unfold pause, get_contents, update_file, ignore_tags_key. cbv zeta.
    unfold bind, read, write, lift, print. simpl. rewrite Hc. simpl.
    rewrite Hl. simpl. rewrite (pause_edit_ok _ _ _ _ Hm Ha). simpl.
    destruct (gh_update_file _ _ _ _ _ _ _); simpl; set_solver. }
  split; [apply annotations_of_put|]. split; [done|].
  split; [apply lookup_insert_eq|].
  intros k Hk. by apply lookup_insert_ne.
Qed.

(** C7. [resume] removes the annotation
    [argocd-image-updater.argoproj.io/{service}.ignore-tags] from the manifest
    of the service when it is there, and hands the manifest as it was to
    [update_file] when it is not; in both cases it raises nothing of its own:
    it returns when [update_file] does. *)
Theorem resume_removes_ignore_tags env service repo branch st f app annotations :
  gh_get_contents repo
    ("environments/" +:+ fmt env +:+ "/" +:+ service +:+ "/application.yaml")
    (Some (default_branch repo)) (remote st) = Ok (AFile f) →
  safe_load (decoded_content f) = Ok app →
  annotations_of app = Some annotations →
  ∃ app',
    resume_edit ("argocd-image-updater.argoproj.io/" +:+ service +:+ ".ignore-tags") app
    = Ok app' ∧
    EvUpdateFile (path f) ("Resume " +:+ service +:+ " in " +:+ fmt env +:+ ".")
                 (yaml_dump app') (sha f) branch
      ∈ trace (resume env service repo branch st).2 ∧
    annotations_of app'
    = Some (delete ("argocd-image-updater.argoproj.io/" +:+ service +:+ ".ignore-tags")
                   annotations) ∧
    (annotations !! ("argocd-image-updater.argoproj.io/" +:+ service +:+ ".ignore-tags")
     = None → app' = app) ∧
    ∀ w',
      gh_update_file repo (path f) ("Resume " +:+ service +:+ " in " +:+ fmt env +:+ ".")
                     (yaml_dump app') (sha f) branch (remote st) = Ok w' →
      (resume env service repo branch st).1 = Ok ().
Proof.
  intros Hc Hl (m & metadata & -> & Hm & Ha)%annotations_of_inv.
  eexists. split; [by apply resume_edit_ok|].
  assert (∀ st', resume env service repo branch st
                 = bind (update_file repo (path f)
                           ("Resume " +:+ service +:+ " in " +:+ fmt env +:+ ".")
                           (yaml_dump (YMap (<["metadata" := YMap (<["annotations" :=
                              YMap (delete (ignore_tags_key service) annotations)]>
                              metadata)]> m)))
                           (sha f) branch)
                        (λ _, print (updated_line
                           ("environments/" +:+ fmt env +:+ "/" +:+ service
                              +:+ "/application.yaml") branch repo))
                        (record (EvGetContents
                           ("environments/" +:+ fmt env +:+ "/" +:+ service
                              +:+ "/application.yaml")
                           (Some (default_branch repo))) st)) as Hrun.
  { intros _. unfold resume, get_contents. cbv zeta.
    rewrite bind_run, read_run, Hc. cbv iota beta.
    unfold lift at 1. rewrite bind_run. simpl the_file. cbv iota beta.
    unfold lift at 1. rewrite bind_run, Hl. cbv iota beta.
    unfold lift at 1. rewrite bind_run, (resume_edit_ok _ _ _ _ Hm Ha). done. }
  rewrite (Hrun st). unfold ignore_tags_key.
  split; [|split; [apply annotations_of_put|split]].
  - unfold bind, update_file, write, print. simpl.
    destruct (gh_update_file _ _ _ _ _ _ _); simpl; set_solver.
  - intros Hk. rewrite delete_id by done. by apply put_back.
  - intros w' Hw. unfold bind, update_file, write, print. simpl. by rewrite Hw.
Qed.


End ByService.

Lemma pause_sets_ignore_tags_scenario :
  ∃ app' annotations',
    pause_edit "argocd-image-updater.argoproj.io/svc.ignore-tags" Mock.svc_manifest
    = Ok app' ∧
    EvUpdateFile "environments/dev/svc/application.yaml" "Pause svc in dev."
                 (@yaml_dump Mock.codec app') "svc manifest" "pause-dev-2024-01-01"
      ∈ trace (@pause _ Mock.github Mock.codec (Some "dev") "svc" Mock.k8s
                      "pause-dev-2024-01-01"
                      (init (Examples.dev_repository "svc manifest"
                                                     "pause-dev-2024-01-01"))).2 ∧
    annotations_of app' = Some annotations' ∧
    annotations'
    = <["argocd-image-updater.argoproj.io/svc.ignore-tags" := YStr "*"]>
        (<["a" := YStr "1"]> ∅) ∧
    annotations' !! "argocd-image-updater.argoproj.io/svc.ignore-tags" = Some (YStr "*") ∧
    ∀ k, k ≠ "argocd-image-updater.argoproj.io/svc.ignore-tags" →
         annotations' !! k = (<["a" := YStr "1"]> ∅ : gmap string yaml) !! k.
Proof.
  apply (@pause_sets_ignore_tags _ Mock.github Mock.codec (Some "dev") "svc" Mock.k8s
           "pause-dev-2024-01-01"
           (init (Examples.dev_repository "svc manifest" "pause-dev-2024-01-01"))
           (Mock.file "environments/dev/svc/application.yaml" "application.yaml"
                      "svc manifest")
           Mock.svc_manifest (<["a" := YStr "1"]> ∅)); reflexivity.
Defined.

Lemma resume_removes_ignore_tags_witness :
  (∃ app',
     resume_edit "argocd-image-updater.argoproj.io/svc.ignore-tags" Mock.paused_manifest
     = Ok app' ∧
     EvUpdateFile "environments/dev/svc/application.yaml" "Resume svc in dev."
                  (@yaml_dump Examples.codec app') "paused manifest"
                  "resume-dev-2024-01-01"
       ∈ trace (@resume _ Mock.github Examples.codec (Some "dev") "svc" Mock.k8s
                        "resume-dev-2024-01-01"
                        (init (Examples.dev_repository "paused manifest"
                                                       "resume-dev-2024-01-01"))).2 ∧
     annotations_of Mock.paused_manifest
     = Some (<["argocd-image-updater.argoproj.io/svc.ignore-tags" := YStr "*"]> ∅) ∧
     annotations_of app' = Some ∅) ∧
  (∃ app',
     resume_edit "argocd-image-updater.argoproj.io/svc.ignore-tags" Mock.svc_manifest
     = Ok app' ∧
     app' = Mock.svc_manifest ∧
     (@resume _ Mock.github Mock.codec (Some "dev") "svc" Mock.k8s
              "resume-dev-2024-01-01"
              (init (Examples.dev_repository "svc manifest"
                                             "resume-dev-2024-01-01"))).1 = Ok ()).
Proof.
  split.
  - destruct (@resume_removes_ignore_tags _ Mock.github Examples.codec (Some "dev")
                "svc" Mock.k8s "resume-dev-2024-01-01"
                (init (Examples.dev_repository "paused manifest" "resume-dev-2024-01-01"))
                (Mock.file "environments/dev/svc/application.yaml" "application.yaml"
                           "paused manifest")
                Mock.paused_manifest
                (<["argocd-image-updater.argoproj.io/svc.ignore-tags" := YStr "*"]> ∅)
                eq_refl eq_refl eq_refl)
      as (app' & Hedit & Hcall & Hgone & _ & _).
    exists app'. split; [exact Hedit|]. split; [exact Hcall|].
    split; [reflexivity|exact Hgone].
  - destruct (@resume_removes_ignore_tags _ Mock.github Mock.codec (Some "dev")
                "svc" Mock.k8s "resume-dev-2024-01-01"
                (init (Examples.dev_repository "svc manifest" "resume-dev-2024-01-01"))
                (Mock.file "environments/dev/svc/application.yaml" "application.yaml"
                           "svc manifest")
                Mock.svc_manifest (<["a" := YStr "1"]> ∅)
                eq_refl eq_refl eq_refl)
      as (app' & Hedit & _ & _ & Hsame & Hreturns).
    exists app'. split; [exact Hedit|]. split; [apply Hsame; reflexivity|].
    eapply Hreturns. reflexivity.
Defined.

